(** * Media request routes (server/routes/request.ts)

    A shallow embedding of the five handlers registered on [requestRoutes]
    (list, create, get by id, delete, change status) over an explicit model
    of the two tables they read and write, followed by the properties of the
    request lifecycle.

    Conventions.
    - A handler is a function from the store and the request data to the new
      store and the response.  [Json c b] stands for [res.status(c).json(b)],
      [Next c m] for [next({ status: c, message: m })], the centralized error
      responder.
    - What is modelled is the callback of each route.  The callbacks run
      behind the authentication layer, so [req.user] is a user object;
      [req.user?.hasPermission(p)] and [req.user?.id] are its method and
      field.  The [isAuthenticated] gates of POST / and
      GET /:requestId/:status live in another file and are not part of the
      callbacks.
    - The request body and the path parameters are taken at the types the
      source reads them at ([mediaId] and [requestId] numbers, [seasons] an
      array of numbers); [mediaType] and the [status] path segment stay raw
      strings, since the handlers branch on them.
    - Calls run one after the other.  The metadata client and the numbers of
      the request statuses come from files outside this one and are
      parameters of the handlers. *)

From Stdlib Require Import ZArith List String Bool Lia Sorted Permutation.
Import ListNotations.
Local Open Scope Z_scope.

(** ** Constants and entities *)

(** lib/permissions: the capabilities this file names. *)
Inductive Permission : Set := REQUEST | AUTO_APPROVE | MANAGE_REQUESTS.

(** constants/media: [MediaRequestStatus] is a numeric enum; its members are
    kept symbolic and their numbers are a parameter of the handlers (see
    [statusCode] below). *)
Module MediaRequestStatus.
Inductive t : Set := PENDING | APPROVED | DECLINED.

End MediaRequestStatus.

(** constants/media: the only member of [MediaStatus] the routes use. *)
Module MediaStatus.
Inductive t : Set := PENDING.
End MediaStatus.

Module MediaType.
Inductive t : Set := MOVIE | TV.
End MediaType.

(** entity/User, as far as the routes use it: the id and the [hasPermission]
    method (the permission evaluator itself is an external collaborator). *)
Module User.
Record t : Type := { id : Z; hasPermission : Permission -> bool }.
End User.

(** entity/Media: the columns the routes write. *)
Module Media.
Record t : Type := {
  id : Z;
  tmdbId : Z;
  tvdbId : option Z;
  status : MediaStatus.t;
  mediaType : string
}.
End Media.

(** entity/SeasonRequest. *)
Module SeasonRequest.
Record t : Type := {
  seasonNumber : Z;
  status : MediaRequestStatus.t
}.
End SeasonRequest.

(** entity/MediaRequest.  [status] is [None] when the JavaScript value is
    [undefined], which happens to an entity in memory and not to a row that
    the handlers have written; [seasons] is empty on a movie request. *)
Module MediaRequest.
Record t : Type := {
  id : Z;
  type : MediaType.t;
  media : Media.t;
  requestedBy : User.t;
  modifiedBy : option User.t;
  status : option MediaRequestStatus.t;
  seasons : list SeasonRequest.t
}.

Definition seasonNumbers (r : t) : list Z :=
  map SeasonRequest.seasonNumber (seasons r).
End MediaRequest.

(** api/themoviedb: the metadata client.  A lookup resolves to the title's
    details or throws an error carrying a message. *)
Module TheMovieDb.
Record ExternalIds : Type := { tvdb_id : option Z }.
Record Details : Type := { id : Z; external_ids : ExternalIds }.
Inductive Answer : Type :=
| Resolved (details : Details)
| Thrown (message : string).
Record t : Type := {
  getMovie : Z -> Answer;
  getTvShow : Z -> Answer
}.
End TheMovieDb.

(** ** The persisted state *)

(** Modelled from the spec: the persistence layer (typeorm's repositories) is
    an external collaborator exposing find, find-one, save and delete.  Each
    table is the list of its rows in insertion order; ids are generated from
    a per-table counter; [save] of a new entity appends it under the next id
    and [save] of a loaded entity updates the row that has its id.  The
    operations of the store do not throw. *)
Record Store : Type := {
  mediaTable : list Media.t;
  requestTable : list MediaRequest.t;
  mediaSeq : Z;
  requestSeq : Z
}.

Definition emptyStore : Store :=
  {| mediaTable := []; requestTable := []; mediaSeq := 1; requestSeq := 1 |}.

(** [Array.prototype.includes] on numbers. *)
Definition includes (l : list Z) (x : Z) : bool := existsb (Z.eqb x) l.

(** Modelled from the spec: the query option [order: { id: 'DESC' }]
    ("descending by id"), as an insertion sort. *)
Fixpoint insertDesc (r : MediaRequest.t) (l : list MediaRequest.t)
  : list MediaRequest.t :=
  match l with
  | [] => [r]
  | x :: xs =>
      if MediaRequest.id x <=? MediaRequest.id r then r :: l
      else x :: insertDesc r xs
  end.

Definition orderByIdDesc (l : list MediaRequest.t) : list MediaRequest.t :=
  fold_right insertDesc [] l.

Module MediaRepository.
(** A Media entity in memory: its row and the [requests] relation, which is
    [None] on an object built by [new Media] and never loaded. *)
Record Loaded : Type := {
  row : Media.t;
  requests : option (list MediaRequest.t)
}.

(** Modelled from the spec: [findOne] with [where: { tmdbId }] and
    [relations: ['requests']], the first row with that catalog id together
    with the requests that refer to it. *)
Definition findOne (tmdbId : Z) (st : Store) : option Loaded :=
  match find (fun m => Media.tmdbId m =? tmdbId) (mediaTable st) with
  | Some m =>
      Some {| row := m;
              requests :=
                Some (filter
                        (fun r => Media.id (MediaRequest.media r) =? Media.id m)
                        (requestTable st)) |}
  | None => None
  end.

(** Modelled from the spec: [save] of a new entity; [build] is the entity
    awaiting its generated id. *)
Definition save (build : Z -> Media.t) (st : Store) : Store * Loaded :=
  let m := build (mediaSeq st) in
  ({| mediaTable := mediaTable st ++ [m];
      requestTable := requestTable st;
      mediaSeq := mediaSeq st + 1;
      requestSeq := requestSeq st |},
   {| row := m; requests := None |}).
End MediaRepository.

Module RequestRepository.
(** Modelled from the spec: [find] with an optional
    [where: { requestedBy: { id } }], ordered by id descending, limited to
    [take] rows. *)
Definition find (where_ : option Z) (take : nat) (st : Store)
  : list MediaRequest.t :=
  let rows :=
    match where_ with
    | Some uid =>
        filter (fun r => User.id (MediaRequest.requestedBy r) =? uid)
               (requestTable st)
    | None => requestTable st
    end in
  firstn take (orderByIdDesc rows).

(** Modelled from the spec: [findOneOrFail] with [where: { id }]; [None]
    stands for the rejection the handlers catch. *)
Definition findOneOrFail (id : Z) (st : Store) : option MediaRequest.t :=
  List.find (fun r => MediaRequest.id r =? id) (requestTable st).

(** Modelled from the spec: [save] of a new entity. *)
Definition insert (build : Z -> MediaRequest.t) (st : Store)
  : Store * MediaRequest.t :=
  let r := build (requestSeq st) in
  ({| mediaTable := mediaTable st;
      requestTable := requestTable st ++ [r];
      mediaSeq := mediaSeq st;
      requestSeq := requestSeq st + 1 |}, r).

(** What an update from the entity [r] makes of a row: [save] writes the
    properties of the entity that have a value and skips one that is
    undefined, so the row keeps its status when the entity has none. *)
Definition written (row r : MediaRequest.t) : MediaRequest.t :=
  {| MediaRequest.id := MediaRequest.id r;
     MediaRequest.type := MediaRequest.type r;
     MediaRequest.media := MediaRequest.media r;
     MediaRequest.requestedBy := MediaRequest.requestedBy r;
     MediaRequest.modifiedBy := MediaRequest.modifiedBy r;
     MediaRequest.status :=
       match MediaRequest.status r with
       | Some s => Some s
       | None => MediaRequest.status row
       end;
     MediaRequest.seasons := MediaRequest.seasons r |}.

(** Modelled from the spec: [save] of a loaded entity, an update of the row
    that has the entity's id. *)
Definition save (r : MediaRequest.t) (st : Store) : Store :=
  {| mediaTable := mediaTable st;
     requestTable :=
       map (fun x =>
              if MediaRequest.id x =? MediaRequest.id r then written x r else x)
           (requestTable st);
     mediaSeq := mediaSeq st;
     requestSeq := requestSeq st |}.

(** Modelled from the spec: [delete] by id. *)
Definition delete (id : Z) (st : Store) : Store :=
  {| mediaTable := mediaTable st;
     requestTable :=
       filter (fun x => negb (MediaRequest.id x =? id)) (requestTable st);
     mediaSeq := mediaSeq st;
     requestSeq := requestSeq st |}.
End RequestRepository.

(** ** Requests and responses *)

Record CreateBody : Type := {
  mediaType : string;
  mediaId : Z;
  seasons : list Z
}.

Inductive Payload : Type :=
| One (request : MediaRequest.t)
| Many (requests : list MediaRequest.t).

Inductive Response : Type :=
| Json (status : Z) (body : Payload)
| Next (status : Z) (message : string).

(** ** The handlers *)

Section Handlers.

Variable tmdb : TheMovieDb.t.

(** The number of each [MediaRequestStatus] member (constants/media). *)
Variable statusCode : MediaRequestStatus.t -> Z.

(** [request.status > 0]; a comparison with [undefined] is false. *)
Definition statusAboveZero (s : option MediaRequestStatus.t) : bool :=
  match s with
  | Some v => 0 <? statusCode v
  | None => false
  end.

(** GET /.  The store does not throw, so the [catch] that answers 500 on a
    store error is not taken. *)
Definition requestRoutes_get_all (st : Store) (user : User.t)
  : Store * Response :=
  let requests :=
    if User.hasPermission user MANAGE_REQUESTS
    then RequestRepository.find None 20 st
    else RequestRepository.find (Some (User.id user)) 20 st in
  (st, Json 200 (Many requests)).

(** POST / *)
Definition requestRoutes_post (st : Store) (user : User.t) (body : CreateBody)
  : Store * Response :=
  match (if String.eqb (mediaType body) "movie"
         then TheMovieDb.getMovie tmdb (mediaId body)
         else TheMovieDb.getTvShow tmdb (mediaId body)) with
  | TheMovieDb.Thrown message => (st, Next 500 message)
  | TheMovieDb.Resolved tmdbMedia =>
      let '(st1, media) :=
        match MediaRepository.findOne (mediaId body) st with
        | Some found => (st, found)
        | None =>
            MediaRepository.save
              (fun id =>
                 {| Media.id := id;
                    Media.tmdbId := TheMovieDb.id tmdbMedia;
                    Media.tvdbId :=
                      TheMovieDb.tvdb_id (TheMovieDb.external_ids tmdbMedia);
                    Media.status := MediaStatus.PENDING;
                    Media.mediaType := mediaType body |})
              st
        end in
      if String.eqb (mediaType body) "movie" then
        let '(st2, request) :=
          RequestRepository.insert
            (fun id =>
               {| MediaRequest.id := id;
                  MediaRequest.type := MediaType.MOVIE;
                  MediaRequest.media := MediaRepository.row media;
                  MediaRequest.requestedBy := user;
                  MediaRequest.modifiedBy := None;
                  MediaRequest.status :=
                    Some (if User.hasPermission user AUTO_APPROVE
                          then MediaRequestStatus.APPROVED
                          else MediaRequestStatus.PENDING);
                  MediaRequest.seasons := [] |})
            st1 in
        (st2, Json 201 (One request))
      else if String.eqb (mediaType body) "tv" then
        let requestedSeasons := seasons body in
        let existingSeasons :=
          match MediaRepository.requests media with
          | Some requests =>
              fold_left
                (fun seasons request =>
                   seasons ++ MediaRequest.seasonNumbers request)
                requests []
          | None => []
          end in
        let finalSeasons :=
          filter (fun rs => negb (includes existingSeasons rs))
                 requestedSeasons in
        if (List.length finalSeasons =? 0)%nat then
          (st1, Next 500 "No seasons available to request")
        else
          let '(st2, request) :=
            RequestRepository.insert
              (fun id =>
                 {| MediaRequest.id := id;
                    MediaRequest.type := MediaType.TV;
                    MediaRequest.media := MediaRepository.row media;
                    MediaRequest.requestedBy := user;
                    MediaRequest.modifiedBy := None;
                    MediaRequest.status :=
                      Some (if User.hasPermission user AUTO_APPROVE
                            then MediaRequestStatus.APPROVED
                            else MediaRequestStatus.PENDING);
                    MediaRequest.seasons :=
                      map (fun sn =>
                             {| SeasonRequest.seasonNumber := sn;
                                SeasonRequest.status :=
                                  if User.hasPermission user AUTO_APPROVE
                                  then MediaRequestStatus.APPROVED
                                  else MediaRequestStatus.PENDING |})
                          finalSeasons |})
              st1 in
          (st2, Json 201 (One request))
      else (st1, Next 500 "Invalid media type")
  end.

(** GET /:requestId *)
Definition requestRoutes_get (st : Store) (requestId : Z) : Store * Response :=
  match RequestRepository.findOneOrFail requestId st with
  | Some request => (st, Json 200 (One request))
  | None => (st, Next 404 "Request not found")
  end.

(** DELETE /:requestId *)
Definition requestRoutes_delete (st : Store) (user : User.t) (requestId : Z)
  : Store * Response :=
  match RequestRepository.findOneOrFail requestId st with
  | Some request =>
      if negb (User.hasPermission user MANAGE_REQUESTS)
         && (negb (User.id (MediaRequest.requestedBy request) =? User.id user)
             || statusAboveZero (MediaRequest.status request))
      then
        (st, Next 401 "You do not have permission to remove this request")
      else
        (RequestRepository.delete (MediaRequest.id request) st,
         Json 200 (One request))
  | None => (st, Next 404 "Request not found")
  end.

(** The [switch] of GET /:requestId/:status; it has no default case, so
    [newStatus] stays [undefined] on any other string. *)
Definition newStatus (status : string) : option MediaRequestStatus.t :=
  if String.eqb status "pending" then Some MediaRequestStatus.PENDING
  else if String.eqb status "approve" then Some MediaRequestStatus.APPROVED
  else if String.eqb status "decline" then Some MediaRequestStatus.DECLINED
  else None.

(** GET /:requestId/:status *)
Definition requestRoutes_get_status (st : Store) (requestId : Z)
                                    (status : string) : Store * Response :=
  match RequestRepository.findOneOrFail requestId st with
  | Some request =>
      let request' :=
        {| MediaRequest.id := MediaRequest.id request;
           MediaRequest.type := MediaRequest.type request;
           MediaRequest.media := MediaRequest.media request;
           MediaRequest.requestedBy := MediaRequest.requestedBy request;
           MediaRequest.modifiedBy := MediaRequest.modifiedBy request;
           MediaRequest.status := newStatus status;
           MediaRequest.seasons := MediaRequest.seasons request |} in
      (RequestRepository.save request' st, Json 200 (One request'))
  | None => (st, Next 404 "Request not found")
  end.

(** A call that has reached the callback of its route: the gates the router
    puts before POST / and GET /:requestId/:status ([isAuthenticated], from
    another file) have let it pass. *)
Inductive Operation : Type :=
| List_
| Create (body : CreateBody)
| Get (requestId : Z)
| Delete (requestId : Z)
| ChangeStatus (requestId : Z) (status : string).

Definition handle (st : Store) (user : User.t) (op : Operation)
  : Store * Response :=
  match op with
  | List_ => requestRoutes_get_all st user
  | Create body => requestRoutes_post st user body
  | Get requestId => requestRoutes_get st requestId
  | Delete requestId => requestRoutes_delete st user requestId
  | ChangeStatus requestId status =>
      requestRoutes_get_status st requestId status
  end.

(** A sequence of calls, each with its caller. *)
Fixpoint run (st : Store) (calls : list (User.t * Operation))
  : Store * list Response :=
  match calls with
  | [] => (st, [])
  | (user, op) :: rest =>
      let '(st1, r) := handle st user op in
      let '(st2, rs) := run st1 rest in
      (st2, r :: rs)
  end.

End Handlers.

(** ** Properties stated in the specification's terms *)

(** "The most recent [n] requests (descending by id)" among [rows]. *)
Definition mostRecent (n : nat) (rows requests : list MediaRequest.t) : Prop :=
  incl requests rows /\
  List.length requests = Nat.min n (List.length rows) /\
  forall r x, In r rows -> ~ In r requests -> In x requests ->
              MediaRequest.id r <= MediaRequest.id x.

Definition descendingById : list MediaRequest.t -> Prop :=
  StronglySorted (fun a b => MediaRequest.id a >= MediaRequest.id b).

(** The caller is the user who made the request. *)
Definition requestedByCaller (user : User.t) (r : MediaRequest.t) : Prop :=
  User.id (MediaRequest.requestedBy r) = User.id user.

(** The season numbers requested so far for the Media row [mid]. *)
Definition mediaSeasons (st : Store) (mid : Z) : list Z :=
  flat_map MediaRequest.seasonNumbers
    (filter (fun r => Media.id (MediaRequest.media r) =? mid) (requestTable st)).

(** The season numbers already requested for the catalog id [tmdbId]. *)
Definition alreadyRequested (st : Store) (tmdbId : Z) : list Z :=
  match find (fun m => Media.tmdbId m =? tmdbId) (mediaTable st) with
  | Some m => mediaSeasons st (Media.id m)
  | None => []
  end.

(** The input season list minus the season numbers in [existing]. *)
Definition minus (input existing : list Z) : list Z :=
  filter (fun s => negb (includes existing s)) input.

(** One SeasonRequest per season number and Media. *)
Definition seasonsDistinct (st : Store) : Prop :=
  forall mid, NoDup (mediaSeasons st mid).

(** One Media row per catalog id. *)
Definition catalogUnique (st : Store) : Prop :=
  NoDup (map Media.tmdbId (mediaTable st)).

(** Generated ids lie below the counters, and every request refers to a row
    of the Media table. *)
Record wellFormed (st : Store) : Prop := {
  wf_media_ids : forall m, In m (mediaTable st) -> Media.id m < mediaSeq st;
  wf_request_ids :
    forall r, In r (requestTable st) -> MediaRequest.id r < requestSeq st;
  wf_request_nodup : NoDup (map MediaRequest.id (requestTable st));
  wf_media_ref :
    forall r, In r (requestTable st) -> In (MediaRequest.media r) (mediaTable st)
}.

(** The metadata client answers for the id it was asked about. *)
Definition faithful (tmdb : TheMovieDb.t) : Prop :=
  forall k d,
    (TheMovieDb.getMovie tmdb k = TheMovieDb.Resolved d -> TheMovieDb.id d = k) /\
    (TheMovieDb.getTvShow tmdb k = TheMovieDb.Resolved d -> TheMovieDb.id d = k).

(** [pending] is the one status whose number is not above zero. *)
Definition pendingLowest (statusCode : MediaRequestStatus.t -> Z) : Prop :=
  statusCode MediaRequestStatus.PENDING <= 0 /\
  0 < statusCode MediaRequestStatus.APPROVED /\
  0 < statusCode MediaRequestStatus.DECLINED.

(** Two request records that differ at most in [status]. *)
Definition sameButStatus (a b : MediaRequest.t) : Prop :=
  MediaRequest.id a = MediaRequest.id b /\
  MediaRequest.type a = MediaRequest.type b /\
  MediaRequest.media a = MediaRequest.media b /\
  MediaRequest.requestedBy a = MediaRequest.requestedBy b /\
  MediaRequest.modifiedBy a = MediaRequest.modifiedBy b /\
  MediaRequest.seasons a = MediaRequest.seasons b.

(** The status a request gets at creation. *)
Definition creationStatus (user : User.t) : MediaRequestStatus.t :=
  if User.hasPermission user AUTO_APPROVE
  then MediaRequestStatus.APPROVED
  else MediaRequestStatus.PENDING.

(** What a stored request still owes to its creation: nobody is recorded as
    its modifier, its season entries carry the status the requester's
    permissions gave them, a movie request has no season entry and a TV
    request at least one. *)
Definition asCreated (r : MediaRequest.t) : Prop :=
  MediaRequest.modifiedBy r = None /\
  Forall (fun s => SeasonRequest.status s
                   = creationStatus (MediaRequest.requestedBy r))
         (MediaRequest.seasons r) /\
  match MediaRequest.type r with
  | MediaType.MOVIE => MediaRequest.seasons r = []
  | MediaType.TV => MediaRequest.seasons r <> []
  end.

(** ** Fixtures *)

Module Fixtures.
(** A client that knows every id, with a tvdb id for shows only. *)
Definition tmdb : TheMovieDb.t :=
  {| TheMovieDb.getMovie := fun k =>
       TheMovieDb.Resolved
         {| TheMovieDb.id := k;
            TheMovieDb.external_ids := {| TheMovieDb.tvdb_id := None |} |};
     TheMovieDb.getTvShow := fun k =>
       TheMovieDb.Resolved
         {| TheMovieDb.id := k;
            TheMovieDb.external_ids :=
              {| TheMovieDb.tvdb_id := Some (k + 1000) |} |} |}.

(** The numbering of an enum declared without initialisers. *)
Definition statusCode (s : MediaRequestStatus.t) : Z :=
  match s with
  | MediaRequestStatus.PENDING => 0
  | MediaRequestStatus.APPROVED => 1
  | MediaRequestStatus.DECLINED => 2
  end.

(** A numbering that starts at one. *)
Definition statusCodeFromOne (s : MediaRequestStatus.t) : Z :=
  statusCode s + 1.

Definition alice : User.t :=
  {| User.id := 7;
     User.hasPermission := fun p =>
       match p with REQUEST => true | _ => false end |}.

Definition bob : User.t :=
  {| User.id := 8;
     User.hasPermission := fun p =>
       match p with REQUEST => true | _ => false end |}.

Definition admin : User.t :=
  {| User.id := 1; User.hasPermission := fun _ => true |}.

Definition movie (k : Z) : CreateBody :=
  {| mediaType := "movie"; mediaId := k; seasons := [] |}.

Definition tv (k : Z) (l : list Z) : CreateBody :=
  {| mediaType := "tv"; mediaId := k; seasons := l |}.

Definition book (k : Z) : CreateBody :=
  {| mediaType := "book"; mediaId := k; seasons := [] |}.

(** The store once alice has requested movie 550, and her request. *)
Definition oneMovie : Store :=
  fst (requestRoutes_post tmdb emptyStore alice (movie 550)).

Definition movieRequest : MediaRequest.t :=
  {| MediaRequest.id := 1;
     MediaRequest.type := MediaType.MOVIE;
     MediaRequest.media :=
       {| Media.id := 1; Media.tmdbId := 550; Media.tvdbId := None;
          Media.status := MediaStatus.PENDING; Media.mediaType := "movie" |};
     MediaRequest.requestedBy := alice;
     MediaRequest.modifiedBy := None;
     MediaRequest.status := Some MediaRequestStatus.PENDING;
     MediaRequest.seasons := [] |}.

Definition approvedRequest : MediaRequest.t :=
  {| MediaRequest.id := 1;
     MediaRequest.type := MediaType.MOVIE;
     MediaRequest.media :=
       {| Media.id := 1; Media.tmdbId := 550; Media.tvdbId := None;
          Media.status := MediaStatus.PENDING; Media.mediaType := "movie" |};
     MediaRequest.requestedBy := alice;
     MediaRequest.modifiedBy := None;
     MediaRequest.status := Some MediaRequestStatus.APPROVED;
     MediaRequest.seasons := [] |}.

(** The same store once the request has been approved. *)
Definition approvedMovie : Store :=
  fst (requestRoutes_get_status oneMovie 1 "approve").

(** The store once alice has requested seasons 1 and 2 of show 5. *)
Definition twoSeasons : Store :=
  fst (requestRoutes_post tmdb emptyStore alice (tv 5 [1; 2])).
End Fixtures.

(** ** Lists: membership, lookup, ordering *)

Lemma includes_true_iff (l : list Z) (x : Z) : includes l x = true <-> In x l.
Proof.
  unfold includes. rewrite existsb_exists. split.
  - intros [y [Hy Hxy]]. apply Z.eqb_eq in Hxy. now subst.
  - intros H. exists x. split; [assumption | apply Z.eqb_refl].
Qed.

Lemma minus_In (input existing : list Z) (s : Z) :
  In s (minus input existing) <-> In s input /\ ~ In s existing.
Proof.
  unfold minus. rewrite filter_In, negb_true_iff.
  rewrite <- (includes_true_iff existing s).
  destruct (includes existing s); intuition congruence.
Qed.

Lemma fold_left_app_flat_map (A B : Type) (f : A -> list B) (l : list A)
      (acc : list B) :
  fold_left (fun seasons request => seasons ++ f request) l acc
  = acc ++ flat_map f l.
Proof.
  revert acc. induction l as [| a l IH]; intros acc; simpl.
  - now rewrite app_nil_r.
  - rewrite IH. now rewrite <- app_assoc.
Qed.

Lemma insertDesc_perm (r : MediaRequest.t) (l : list MediaRequest.t) :
  Permutation (r :: l) (insertDesc r l).
Proof.
  induction l as [| x xs IH]; simpl.
  - reflexivity.
  - destruct (MediaRequest.id x <=? MediaRequest.id r).
    + reflexivity.
    + rewrite perm_swap. now constructor.
Qed.

Lemma orderByIdDesc_perm (l : list MediaRequest.t) :
  Permutation l (orderByIdDesc l).
Proof.
  induction l as [| x xs IH]; simpl.
  - constructor.
  - rewrite <- insertDesc_perm. now constructor.
Qed.

Lemma insertDesc_sorted (r : MediaRequest.t) (l : list MediaRequest.t) :
  descendingById l -> descendingById (insertDesc r l).
Proof.
  unfold descendingById.
  induction l as [| x xs IH]; intros Hs; simpl.
  - repeat constructor.
  - destruct (MediaRequest.id x <=? MediaRequest.id r) eqn:E.
    + apply Z.leb_le in E. constructor; [assumption |].
      inversion Hs as [| ? ? Hxs Hall]; subst.
      constructor; [lia |].
      eapply Forall_impl; [| exact Hall]. simpl. intros; lia.
    + apply Z.leb_gt in E.
      inversion Hs as [| ? ? Hxs Hall]; subst.
      constructor; [now apply IH |].
      rewrite <- (insertDesc_perm r xs). constructor; [lia | assumption].
Qed.

Lemma orderByIdDesc_sorted (l : list MediaRequest.t) :
  descendingById (orderByIdDesc l).
Proof.
  induction l as [| x xs IH]; simpl.
  - constructor.
  - now apply insertDesc_sorted.
Qed.

Lemma sorted_app_inv (A : Type) (R : A -> A -> Prop) (a b : list A) :
  StronglySorted R (a ++ b) ->
  StronglySorted R a /\ forall x y, In x a -> In y b -> R x y.
Proof.
  induction a as [| h a IH]; simpl; intros Hs.
  - split; [constructor | intros x y []].
  - inversion Hs as [| ? ? Hrest Hall]; subst.
    destruct (IH Hrest) as [Ha Hab]. split.
    + constructor; [assumption |].
      apply Forall_forall. intros z Hz.
      rewrite Forall_forall in Hall. apply Hall, in_or_app. now left.
    + intros x y [-> | Hx] Hy.
      * rewrite Forall_forall in Hall. apply Hall, in_or_app. now right.
      * now apply Hab.
Qed.

Lemma firstn_orderByIdDesc_mostRecent (n : nat) (rows : list MediaRequest.t) :
  mostRecent n rows (firstn n (orderByIdDesc rows)) /\
  descendingById (firstn n (orderByIdDesc rows)).
Proof.
  pose proof (orderByIdDesc_perm rows) as Hperm.
  pose proof (orderByIdDesc_sorted rows) as Hsorted.
  unfold descendingById in *.
  rewrite <- (firstn_skipn n (orderByIdDesc rows)) in Hsorted.
  destruct (sorted_app_inv _ _ _ _ Hsorted) as [Hfirst Hcross].
  split; [| exact Hfirst].
  repeat split.
  - intros x Hx. apply (Permutation_in _ (Permutation_sym Hperm)).
    rewrite <- (firstn_skipn n (orderByIdDesc rows)). apply in_or_app. now left.
  - rewrite length_firstn. now rewrite (Permutation_length Hperm).
  - intros r x Hr Hnot Hx.
    apply (Permutation_in _ Hperm) in Hr.
    rewrite <- (firstn_skipn n (orderByIdDesc rows)) in Hr.
    apply in_app_or in Hr. destruct Hr as [Hr | Hr]; [contradiction |].
    specialize (Hcross x r Hx Hr). simpl in Hcross. lia.
Qed.

(** ** List *)

(** C6. A caller without the manage-requests capability gets only requests
    whose requester is the caller: the most recent twenty of the caller's
    own.  A caller with it gets the most recent twenty of the whole table.
    Either way the answer is a 200 with at most twenty requests in descending
    order of id, and the store is left as it was. *)
Theorem list_scope_order_limit (st : Store) (user : User.t) :
  exists requests,
    requestRoutes_get_all st user = (st, Json 200 (Many requests)) /\
    (List.length requests <= 20)%nat /\
    descendingById requests /\
    (User.hasPermission user MANAGE_REQUESTS = false ->
       Forall (requestedByCaller user) requests /\
       mostRecent 20
         (filter (fun r => User.id (MediaRequest.requestedBy r) =? User.id user)
                 (requestTable st))
         requests) /\
    (User.hasPermission user MANAGE_REQUESTS = true ->
       mostRecent 20 (requestTable st) requests).
Proof.
  unfold requestRoutes_get_all, RequestRepository.find.
  destruct (User.hasPermission user MANAGE_REQUESTS) eqn:Hmanage.
  - destruct (firstn_orderByIdDesc_mostRecent 20 (requestTable st))
      as [Hrecent Hsorted].
    eexists. split; [reflexivity |].
    split; [rewrite length_firstn; lia |].
    split; [exact Hsorted |].
    split; [discriminate | intros _; exact Hrecent].
  - set (own := filter _ (requestTable st)).
    destruct (firstn_orderByIdDesc_mostRecent 20 own) as [Hrecent Hsorted].
    eexists. split; [reflexivity |].
    split; [rewrite length_firstn; lia |].
    split; [exact Hsorted |].
    split; [| discriminate].
    intros _. split; [| exact Hrecent].
    apply Forall_forall. intros r Hr.
    destruct Hrecent as [Hincl _]. apply Hincl in Hr.
    unfold own in Hr. apply filter_In in Hr. destruct Hr as [_ Hr].
    now apply Z.eqb_eq in Hr.
Qed.

(** ** Create *)

Ltac unfold_post :=
  unfold requestRoutes_post, MediaRepository.findOne, MediaRepository.save,
    RequestRepository.insert.

Lemma find_tmdbId_some (k : Z) (l : list Media.t) (m : Media.t) :
  find (fun m => Media.tmdbId m =? k) l = Some m ->
  In m l /\ Media.tmdbId m = k.
Proof.
  intros H. apply find_some in H. destruct H as [Hin Heq].
  apply Z.eqb_eq in Heq. now split.
Qed.

Lemma seasonNumbers_built (status : MediaRequestStatus.t) (l : list Z) :
  map SeasonRequest.seasonNumber
      (map (fun sn => {| SeasonRequest.seasonNumber := sn;
                         SeasonRequest.status := status |}) l)
  = l.
Proof.
  rewrite map_map. simpl. apply map_id.
Qed.

(** C7. A movie Create whose metadata lookup resolves answers 201 with the
    one Request it appended to the table: a movie request by the caller,
    approved when the caller holds the auto-approve capability and pending
    otherwise, attached to the Media row of the catalog id (the existing row,
    or else the row just created from the resolved details).  When the
    lookup throws, the call fails with a 500 and the store is untouched. *)
Theorem movie_create_one_request
        (tmdb : TheMovieDb.t) (st : Store) (user : User.t) (body : CreateBody) :
  mediaType body = "movie"%string ->
  match TheMovieDb.getMovie tmdb (mediaId body) with
  | TheMovieDb.Thrown message =>
      requestRoutes_post tmdb st user body = (st, Next 500 message)
  | TheMovieDb.Resolved details =>
      exists st' request,
        requestRoutes_post tmdb st user body = (st', Json 201 (One request)) /\
        requestTable st' = requestTable st ++ [request] /\
        MediaRequest.type request = MediaType.MOVIE /\
        MediaRequest.requestedBy request = user /\
        MediaRequest.status request = Some (creationStatus user) /\
        In (MediaRequest.media request) (mediaTable st') /\
        (TheMovieDb.id details = mediaId body ->
         Media.tmdbId (MediaRequest.media request) = mediaId body) /\
        match find (fun m => Media.tmdbId m =? mediaId body) (mediaTable st) with
        | Some m =>
            MediaRequest.media request = m /\ mediaTable st' = mediaTable st
        | None =>
            mediaTable st' = mediaTable st ++ [MediaRequest.media request] /\
            Media.tmdbId (MediaRequest.media request) = TheMovieDb.id details
        end
  end.
Proof.
  intros Hmovie. unfold_post. rewrite Hmovie. simpl.
  destruct (TheMovieDb.getMovie tmdb (mediaId body)) as [details | message];
    [| reflexivity].
  destruct (find (fun m => Media.tmdbId m =? mediaId body) (mediaTable st))
    as [m |] eqn:Hfind; simpl.
  - destruct (find_tmdbId_some _ _ _ Hfind) as [Hin Hk].
    do 2 eexists. split; [reflexivity |]. simpl. repeat split; auto.
  - do 2 eexists. split; [reflexivity |]. simpl. repeat split; auto.
    apply in_or_app. right. now left.
Qed.

(** C3. A TV Create whose metadata lookup resolves compares the input season
    list with the season numbers of the existing Requests of the Media.
    When nothing remains it fails with the 500 "No seasons available to
    request" and the Request table is unchanged; otherwise it appends one
    Request whose season numbers are exactly the remaining ones, in input
    order, each SeasonRequest carrying the creation status of the parent. *)
Theorem tv_create_remaining_seasons
        (tmdb : TheMovieDb.t) (st : Store) (user : User.t) (body : CreateBody)
        (details : TheMovieDb.Details) :
  mediaType body = "tv"%string ->
  TheMovieDb.getTvShow tmdb (mediaId body) = TheMovieDb.Resolved details ->
  let remaining := minus (seasons body) (alreadyRequested st (mediaId body)) in
  (forall s, In s remaining <->
             In s (seasons body) /\ ~ In s (alreadyRequested st (mediaId body))) /\
  (remaining = [] ->
   exists st',
     requestRoutes_post tmdb st user body
     = (st', Next 500 "No seasons available to request") /\
     requestTable st' = requestTable st) /\
  (remaining <> [] ->
   exists st' request,
     requestRoutes_post tmdb st user body = (st', Json 201 (One request)) /\
     requestTable st' = requestTable st ++ [request] /\
     MediaRequest.type request = MediaType.TV /\
     MediaRequest.seasonNumbers request = remaining /\
     MediaRequest.status request = Some (creationStatus user) /\
     Forall (fun s => SeasonRequest.status s = creationStatus user)
            (MediaRequest.seasons request)).
Proof.
  intros Htv Hshow remaining.
  split; [intros s; apply minus_In |].
  unfold_post. rewrite Htv, Hshow. simpl.
  unfold remaining, alreadyRequested.
  destruct (find (fun m => Media.tmdbId m =? mediaId body) (mediaTable st))
    as [m |] eqn:Hfind; simpl.
  - rewrite fold_left_app_flat_map. simpl. fold (mediaSeasons st (Media.id m)).
    fold (minus (seasons body) (mediaSeasons st (Media.id m))).
    destruct (minus (seasons body) (mediaSeasons st (Media.id m)))
      as [| s0 rest] eqn:Hminus; simpl.
    + split; [intros _ | intros H; now elim H].
      eexists. split; reflexivity.
    + split; [discriminate | intros _].
      do 2 eexists. split; [reflexivity |]. simpl.
      unfold MediaRequest.seasonNumbers. simpl.
      rewrite seasonNumbers_built. repeat split; auto.
      constructor; [reflexivity |].
      apply Forall_forall. intros x Hx. apply in_map_iff in Hx.
      destruct Hx as [sn [<- _]]. reflexivity.
  - change (filter (fun _ : Z => true) (seasons body))
      with (minus (seasons body) []).
    destruct (minus (seasons body) []) as [| s0 rest] eqn:Hminus; simpl.
    + split; [intros _ | intros H; now elim H].
      eexists. split; reflexivity.
    + split; [discriminate | intros _].
      do 2 eexists. split; [reflexivity |]. simpl.
      unfold MediaRequest.seasonNumbers. simpl.
      rewrite seasonNumbers_built. repeat split; auto.
      constructor; [reflexivity |].
      apply Forall_forall. intros x Hx. apply in_map_iff in Hx.
      destruct Hx as [sn [<- _]]. reflexivity.
Qed.

(** What a Create call does to the store: nothing when the lookup throws;
    otherwise the lookup-or-create step on the Media table, followed either
    by a failure or by one appended Request. *)
Lemma post_effect (tmdb : TheMovieDb.t) (st : Store) (user : User.t)
      (body : CreateBody) :
  (exists message,
      requestRoutes_post tmdb st user body = (st, Next 500 message)) \/
  exists (d : TheMovieDb.Details) (m : Media.t) (st1 : Store),
    (if String.eqb (mediaType body) "movie"
     then TheMovieDb.getMovie tmdb (mediaId body)
     else TheMovieDb.getTvShow tmdb (mediaId body)) = TheMovieDb.Resolved d /\
    ((find (fun x => Media.tmdbId x =? mediaId body) (mediaTable st) = Some m /\
      st1 = st) \/
     (find (fun x => Media.tmdbId x =? mediaId body) (mediaTable st) = None /\
      Media.id m = mediaSeq st /\
      Media.tmdbId m = TheMovieDb.id d /\
      st1 = {| mediaTable := mediaTable st ++ [m];
               requestTable := requestTable st;
               mediaSeq := mediaSeq st + 1;
               requestSeq := requestSeq st |})) /\
    ((exists message,
         requestRoutes_post tmdb st user body = (st1, Next 500 message)) \/
     exists r,
       requestRoutes_post tmdb st user body
       = ({| mediaTable := mediaTable st1;
             requestTable := requestTable st1 ++ [r];
             mediaSeq := mediaSeq st1;
             requestSeq := requestSeq st1 + 1 |}, Json 201 (One r)) /\
       MediaRequest.id r = requestSeq st /\
       MediaRequest.media r = m /\
       MediaRequest.seasonNumbers r
       = if String.eqb (mediaType body) "movie" then []
         else minus (seasons body) (alreadyRequested st (mediaId body))).
Proof.
  unfold_post.
  destruct (if String.eqb (mediaType body) "movie"
            then TheMovieDb.getMovie tmdb (mediaId body)
            else TheMovieDb.getTvShow tmdb (mediaId body)) as [d | message];
    [right | left; eexists; reflexivity].
  unfold alreadyRequested.
  destruct (find (fun x => Media.tmdbId x =? mediaId body) (mediaTable st))
    as [m |] eqn:Hfind; simpl.
  - exists d, m, st. split; [reflexivity |]. split; [left; now split |].
    destruct (String.eqb (mediaType body) "movie").
    + right. eexists. split; [reflexivity |]. now repeat split.
    + destruct (String.eqb (mediaType body) "tv");
        [| left; eexists; reflexivity].
      rewrite fold_left_app_flat_map. simpl.
      fold (mediaSeasons st (Media.id m)).
      fold (minus (seasons body) (mediaSeasons st (Media.id m))).
      destruct (minus (seasons body) (mediaSeasons st (Media.id m)))
        as [| s0 rest]; simpl.
      * left. eexists. reflexivity.
      * right. eexists. split; [reflexivity |].
        unfold MediaRequest.seasonNumbers. simpl.
        rewrite seasonNumbers_built. now repeat split.
  - exists d,
      {| Media.id := mediaSeq st;
         Media.tmdbId := TheMovieDb.id d;
         Media.tvdbId := TheMovieDb.tvdb_id (TheMovieDb.external_ids d);
         Media.status := MediaStatus.PENDING;
         Media.mediaType := mediaType body |}.
    eexists. split; [reflexivity |].
    split; [right; split; [reflexivity |]; repeat split; reflexivity |].
    simpl.
    destruct (String.eqb (mediaType body) "movie").
    + right. eexists. split; [reflexivity |]. now repeat split.
    + destruct (String.eqb (mediaType body) "tv");
        [| left; eexists; reflexivity].
      change (filter (fun _ : Z => true) (seasons body))
        with (minus (seasons body) []).
      destruct (minus (seasons body) []) as [| s0 rest]; simpl.
      * left. eexists. reflexivity.
      * right. eexists. split; [reflexivity |].
        unfold MediaRequest.seasonNumbers. simpl.
        rewrite seasonNumbers_built. now repeat split.
Qed.

(** *** Seasons stay distinct *)

Lemma mediaSeasons_same_table (st st' : Store) (mid : Z) :
  requestTable st' = requestTable st ->
  mediaSeasons st' mid = mediaSeasons st mid.
Proof. unfold mediaSeasons. now intros ->. Qed.

Lemma mediaSeasons_appended (st st' : Store) (r : MediaRequest.t) (mid : Z) :
  requestTable st' = requestTable st ++ [r] ->
  mediaSeasons st' mid
  = mediaSeasons st mid
    ++ (if Media.id (MediaRequest.media r) =? mid
        then MediaRequest.seasonNumbers r else []).
Proof.
  unfold mediaSeasons. intros ->.
  rewrite filter_app, flat_map_app. simpl.
  destruct (Media.id (MediaRequest.media r) =? mid); simpl;
    now rewrite ?app_nil_r.
Qed.

Lemma mediaSeasons_fresh (st : Store) :
  wellFormed st -> mediaSeasons st (mediaSeq st) = [].
Proof.
  intros Hwf. unfold mediaSeasons.
  assert (Hnone :
    filter (fun r => Media.id (MediaRequest.media r) =? mediaSeq st)
           (requestTable st) = []).
  { pose proof (wf_media_ref _ Hwf) as Href.
    pose proof (wf_media_ids _ Hwf) as Hids.
    induction (requestTable st) as [| r rs IH]; simpl; [reflexivity |].
    assert (Hlt : Media.id (MediaRequest.media r) < mediaSeq st)
      by (apply Hids, Href; now left).
    destruct (Media.id (MediaRequest.media r) =? mediaSeq st) eqn:E.
    - apply Z.eqb_eq in E. lia.
    - apply IH. intros x Hx. apply Href. now right. }
  now rewrite Hnone.
Qed.

Lemma NoDup_app_minus (existing input : list Z) :
  NoDup existing -> NoDup input -> NoDup (existing ++ minus input existing).
Proof.
  intros He Hi. apply NoDup_app.
  - assumption.
  - unfold minus. now apply NoDup_filter.
  - intros a Ha Hm. apply minus_In in Hm. tauto.
Qed.

Lemma NoDup_minus (existing input : list Z) :
  NoDup input -> NoDup (minus input existing).
Proof. intros H. unfold minus. now apply NoDup_filter. Qed.

(** C4 (as amended). On a well-formed store where no season number occurs
    twice for any Media, a Create call whose input season list has no
    duplicates leaves a store with the same property, whatever its outcome. *)
Theorem create_keeps_seasons_distinct
        (tmdb : TheMovieDb.t) (st : Store) (user : User.t) (body : CreateBody) :
  wellFormed st ->
  seasonsDistinct st ->
  NoDup (seasons body) ->
  seasonsDistinct (fst (requestRoutes_post tmdb st user body)).
Proof.
  intros Hwf Hinv Hinput.
  destruct (post_effect tmdb st user body)
    as [[message ->] | (d & m & st1 & _ & Hstep & Hout)];
    [exact Hinv |].
  assert (Hst1 : requestTable st1 = requestTable st)
    by (destruct Hstep as [[_ ->] | (_ & _ & _ & ->)]; reflexivity).
  destruct Hout as [[message ->] | (r & -> & _ & Hmedia & Hseasons)]; simpl.
  - intros mid. rewrite (mediaSeasons_same_table st st1 mid Hst1). apply Hinv.
  - intros mid.
    rewrite (mediaSeasons_appended st _ r mid) by (simpl; now rewrite Hst1).
    destruct (Media.id (MediaRequest.media r) =? mid) eqn:E;
      [| rewrite app_nil_r; apply Hinv].
    apply Z.eqb_eq in E. subst mid. rewrite Hseasons, Hmedia.
    destruct (String.eqb (mediaType body) "movie");
      [rewrite app_nil_r; apply Hinv |].
    unfold alreadyRequested.
    destruct Hstep as [[Hfind _] | (Hfind & Hid & _ & _)]; rewrite Hfind.
    + apply NoDup_app_minus; [apply Hinv | assumption].
    + rewrite Hid, (mediaSeasons_fresh st Hwf). simpl.
      now apply NoDup_minus.
Qed.

(** C4 (as stated) fails on a season list that repeats a number: the filter
    only removes numbers of earlier requests, so both copies are stored. *)
Lemma repeated_input_season_stored_twice :
  exists st' request,
    requestRoutes_post Fixtures.tmdb emptyStore Fixtures.alice
                       (Fixtures.tv 5 [1; 1])
    = (st', Json 201 (One request)) /\
    wellFormed emptyStore /\
    seasonsDistinct emptyStore /\
    mediaSeasons st' (Media.id (MediaRequest.media request)) = [1; 1] /\
    ~ seasonsDistinct st'.
Proof.
  do 2 eexists. split; [reflexivity |].
  split; [constructor; simpl; try constructor; intros ? [] |].
  split; [intros mid; constructor |].
  split; [reflexivity |].
  intros H. specialize (H 1). cbv in H.
  inversion H as [| x l Hnotin _]; subst. apply Hnotin. now left.
Qed.

(** *** Well-formed stores *)

Lemma emptyStore_wellFormed : wellFormed emptyStore.
Proof. constructor; simpl; try constructor; intros ? []. Qed.

Lemma emptyStore_seasonsDistinct : seasonsDistinct emptyStore.
Proof. intros mid. constructor. Qed.

Lemma emptyStore_catalogUnique : catalogUnique emptyStore.
Proof. constructor. Qed.

Lemma wellFormed_new_media (st : Store) (m : Media.t) :
  wellFormed st ->
  Media.id m = mediaSeq st ->
  wellFormed {| mediaTable := mediaTable st ++ [m];
                requestTable := requestTable st;
                mediaSeq := mediaSeq st + 1;
                requestSeq := requestSeq st |}.
Proof.
  intros [Hm Hr Hnd Href] Hid. constructor; simpl; auto.
  - intros x Hx. apply in_app_or in Hx. destruct Hx as [Hx | [<- | []]].
    + specialize (Hm x Hx). lia.
    + lia.
  - intros r Hin. apply in_or_app. left. now apply Href.
Qed.

Lemma wellFormed_new_request (st : Store) (r : MediaRequest.t) :
  wellFormed st ->
  MediaRequest.id r = requestSeq st ->
  In (MediaRequest.media r) (mediaTable st) ->
  wellFormed {| mediaTable := mediaTable st;
                requestTable := requestTable st ++ [r];
                mediaSeq := mediaSeq st;
                requestSeq := requestSeq st + 1 |}.
Proof.
  intros [Hm Hr Hnd Href] Hid Hmedia. constructor; simpl; auto.
  - intros x Hx. apply in_app_or in Hx. destruct Hx as [Hx | [<- | []]].
    + specialize (Hr x Hx). lia.
    + lia.
  - rewrite map_app. simpl. apply NoDup_app; [assumption | repeat constructor; intros [] |].
    intros a Ha [<- | []]. apply in_map_iff in Ha.
    destruct Ha as [x [Hx Hin]]. specialize (Hr x Hin). lia.
  - intros x Hx. apply in_app_or in Hx. destruct Hx as [Hx | [<- | []]]; auto.
Qed.

Lemma post_wellFormed (tmdb : TheMovieDb.t) (st : Store) (user : User.t)
      (body : CreateBody) :
  wellFormed st -> wellFormed (fst (requestRoutes_post tmdb st user body)).
Proof.
  intros Hwf.
  destruct (post_effect tmdb st user body)
    as [[message ->] | (d & m & st1 & _ & Hstep & Hout)];
    [exact Hwf |].
  assert (H1 : wellFormed st1 /\ In m (mediaTable st1)
               /\ requestSeq st1 = requestSeq st).
  { destruct Hstep as [[Hfind ->] | (_ & Hid & _ & ->)].
    - destruct (find_tmdbId_some _ _ _ Hfind) as [Hin _].
      split; [exact Hwf | split; [exact Hin | reflexivity]].
    - split; [now apply wellFormed_new_media |].
      split; [apply in_or_app; right; now left | reflexivity]. }
  destruct H1 as (Hwf1 & Hin & Hseq).
  destruct Hout as [[message ->] | (r & -> & Hid & Hmedia & _)]; simpl.
  - exact Hwf1.
  - apply wellFormed_new_request; [exact Hwf1 | congruence | now rewrite Hmedia].
Qed.

Lemma find_request_some (id : Z) (st : Store) (r : MediaRequest.t) :
  RequestRepository.findOneOrFail id st = Some r ->
  In r (requestTable st) /\ MediaRequest.id r = id.
Proof.
  unfold RequestRepository.findOneOrFail. intros H.
  apply find_some in H. destruct H as [Hin Heq].
  apply Z.eqb_eq in Heq. now split.
Qed.

Lemma map_id_filter_NoDup (p : MediaRequest.t -> bool)
      (l : list MediaRequest.t) :
  NoDup (map MediaRequest.id l) -> NoDup (map MediaRequest.id (filter p l)).
Proof.
  induction l as [| x xs IH]; simpl; intros H; [constructor |].
  inversion H as [| ? ? Hnotin Hrest]; subst.
  destruct (p x); simpl; [| now apply IH].
  constructor; [| now apply IH].
  intros Hin. apply Hnotin. apply in_map_iff in Hin.
  destruct Hin as [y [Hy Hin]]. apply filter_In in Hin.
  apply in_map_iff. exists y. tauto.
Qed.

Lemma delete_wellFormed (id : Z) (st : Store) :
  wellFormed st -> wellFormed (RequestRepository.delete id st).
Proof.
  intros [Hm Hr Hnd Href]. constructor; simpl; auto.
  - intros r Hin. apply filter_In in Hin. now apply Hr.
  - now apply map_id_filter_NoDup.
  - intros r Hin. apply filter_In in Hin. now apply Href.
Qed.

Lemma written_defined (row r : MediaRequest.t) (s : MediaRequestStatus.t) :
  MediaRequest.status r = Some s -> RequestRepository.written row r = r.
Proof.
  destruct r. simpl. intros ->. reflexivity.
Qed.

Lemma save_ids (r : MediaRequest.t) (l : list MediaRequest.t) :
  map MediaRequest.id
      (map (fun x =>
              if MediaRequest.id x =? MediaRequest.id r
              then RequestRepository.written x r else x) l)
  = map MediaRequest.id l.
Proof.
  rewrite map_map. apply map_ext. intros x.
  destruct (MediaRequest.id x =? MediaRequest.id r) eqn:E; [| reflexivity].
  apply Z.eqb_eq in E. simpl. now symmetry.
Qed.

Lemma save_wellFormed (r : MediaRequest.t) (st : Store) :
  wellFormed st ->
  In (MediaRequest.media r) (mediaTable st) ->
  wellFormed (RequestRepository.save r st).
Proof.
  intros [Hm Hr Hnd Href] Hmedia. constructor; simpl; auto.
  - intros x Hx. apply in_map_iff in Hx. destruct Hx as [y [Hy Hin]].
    destruct (MediaRequest.id y =? MediaRequest.id r) eqn:E; subst x.
    + apply Z.eqb_eq in E. simpl. rewrite <- E. now apply Hr.
    + now apply Hr.
  - now rewrite save_ids.
  - intros x Hx. apply in_map_iff in Hx. destruct Hx as [y [Hy Hin]].
    destruct (MediaRequest.id y =? MediaRequest.id r); subst x; simpl; auto.
Qed.

Lemma handle_wellFormed (tmdb : TheMovieDb.t)
      (statusCode : MediaRequestStatus.t -> Z) (st : Store) (user : User.t)
      (op : Operation) :
  wellFormed st -> wellFormed (fst (handle tmdb statusCode st user op)).
Proof.
  intros Hwf. destruct op as [| body | id | id | id status]; simpl.
  - exact Hwf.
  - now apply post_wellFormed.
  - unfold requestRoutes_get.
    now destruct (RequestRepository.findOneOrFail id st).
  - unfold requestRoutes_delete.
    destruct (RequestRepository.findOneOrFail id st) as [r |]; [| exact Hwf].
    destruct (negb (User.hasPermission user MANAGE_REQUESTS)
              && (negb (User.id (MediaRequest.requestedBy r) =? User.id user)
                  || statusAboveZero statusCode (MediaRequest.status r)));
      simpl; [exact Hwf | now apply delete_wellFormed].
  - unfold requestRoutes_get_status.
    destruct (RequestRepository.findOneOrFail id st) as [r |] eqn:Hfind;
      [| exact Hwf].
    simpl. apply save_wellFormed; [exact Hwf |]. simpl.
    apply (wf_media_ref _ Hwf). now apply find_request_some in Hfind.
Qed.

Lemma run_wellFormed (tmdb : TheMovieDb.t)
      (statusCode : MediaRequestStatus.t -> Z)
      (calls : list (User.t * Operation)) (st : Store) :
  wellFormed st -> wellFormed (fst (run tmdb statusCode st calls)).
Proof.
  revert st. induction calls as [| [user op] rest IH]; intros st Hwf; simpl.
  - exact Hwf.
  - pose proof (handle_wellFormed tmdb statusCode st user op Hwf) as H1.
    destruct (handle tmdb statusCode st user op) as [st1 r]. simpl in H1.
    specialize (IH st1 H1).
    destruct (run tmdb statusCode st1 rest) as [st2 rs]. exact IH.
Qed.

(** *** One Media row per catalog id *)

Lemma find_tmdbId_none (k : Z) (l : list Media.t) :
  find (fun m => Media.tmdbId m =? k) l = None ->
  ~ In k (map Media.tmdbId l).
Proof.
  intros Hnone Hin. apply in_map_iff in Hin. destruct Hin as [x [Hx Hin]].
  pose proof (find_none _ _ Hnone x Hin) as H. simpl in H.
  apply Z.eqb_neq in H. contradiction.
Qed.

Lemma find_tmdbId_appended (k : Z) (l : list Media.t) (m : Media.t) :
  find (fun m => Media.tmdbId m =? k) l = None ->
  Media.tmdbId m = k ->
  find (fun m => Media.tmdbId m =? k) (l ++ [m]) = Some m.
Proof.
  intros Hnone Hk. induction l as [| x xs IH]; simpl in *.
  - now rewrite Hk, Z.eqb_refl.
  - destruct (Media.tmdbId x =? k); [discriminate | now apply IH].
Qed.

Lemma catalogUnique_single_row (k : Z) (l : list Media.t) (m : Media.t) :
  NoDup (map Media.tmdbId l) ->
  find (fun m => Media.tmdbId m =? k) l = Some m ->
  filter (fun m => Media.tmdbId m =? k) l = [m].
Proof.
  induction l as [| x xs IH]; simpl; intros Hnd Hfind; [discriminate |].
  inversion Hnd as [| ? ? Hnotin Hrest]; subst.
  destruct (Media.tmdbId x =? k) eqn:E.
  - injection Hfind as ->. f_equal.
    apply Z.eqb_eq in E.
    clear IH Hnd Hrest. induction xs as [| y ys IHy]; simpl; [reflexivity |].
    destruct (Media.tmdbId y =? k) eqn:Ey.
    + apply Z.eqb_eq in Ey. exfalso. apply Hnotin. left. congruence.
    + apply IHy. intros H. apply Hnotin. now right.
  - now apply IH.
Qed.

(** A Create call that finds the Media row of its catalog id creates none
    and attaches its Request, if it makes one, to that row. *)
Lemma post_media_found (tmdb : TheMovieDb.t) (st : Store) (user : User.t)
      (body : CreateBody) (m : Media.t) :
  find (fun x => Media.tmdbId x =? mediaId body) (mediaTable st) = Some m ->
  mediaTable (fst (requestRoutes_post tmdb st user body)) = mediaTable st /\
  forall code r,
    snd (requestRoutes_post tmdb st user body) = Json code (One r) ->
    MediaRequest.media r = m.
Proof.
  intros Hfind.
  destruct (post_effect tmdb st user body)
    as [[message ->] | (d & m' & st1 & _ & Hstep & Hout)]; simpl.
  - split; [reflexivity | discriminate].
  - destruct Hstep as [[Hfind' ->] | (Hnone & _)]; [| congruence].
    assert (m' = m) by congruence. subst m'.
    destruct Hout as [[message ->] | (r & -> & _ & Hmedia & _)]; simpl.
    + split; [reflexivity | discriminate].
    + split; [reflexivity |]. intros code r' H. now injection H as _ <-.
Qed.

(** A Create call whose lookup resolves and that finds no Media row for its
    catalog id appends exactly one, carrying the id the client answered. *)
Lemma post_media_created (tmdb : TheMovieDb.t) (st : Store) (user : User.t)
      (body : CreateBody) (d : TheMovieDb.Details) :
  (if String.eqb (mediaType body) "movie"
   then TheMovieDb.getMovie tmdb (mediaId body)
   else TheMovieDb.getTvShow tmdb (mediaId body)) = TheMovieDb.Resolved d ->
  find (fun x => Media.tmdbId x =? mediaId body) (mediaTable st) = None ->
  exists m,
    mediaTable (fst (requestRoutes_post tmdb st user body))
    = mediaTable st ++ [m] /\
    Media.tmdbId m = TheMovieDb.id d /\
    forall code r,
      snd (requestRoutes_post tmdb st user body) = Json code (One r) ->
      MediaRequest.media r = m.
Proof.
  intros Hanswer Hnone.
  destruct (post_effect tmdb st user body)
    as [[message Hpost] | (d' & m & st1 & Hanswer' & Hstep & Hout)].
  - exfalso. revert Hpost. unfold_post. rewrite Hanswer, Hnone. simpl.
    destruct (String.eqb (mediaType body) "movie"); [discriminate |].
    destruct (String.eqb (mediaType body) "tv"); [| intros H; injection H as H _].
    + destruct (List.length _ =? 0)%nat; [intros H; injection H as H _ | discriminate].
      all: apply (f_equal (fun s => List.length (mediaTable s))) in H;
        simpl in H; rewrite length_app in H; simpl in H; lia.
    + apply (f_equal (fun s => List.length (mediaTable s))) in H.
      simpl in H. rewrite length_app in H. simpl in H. lia.
  - assert (d' = d) by congruence. subst d'.
    destruct Hstep as [[Hfind _] | (_ & _ & Hk & ->)]; [congruence |].
    exists m.
    destruct Hout as [[message ->] | (r & -> & _ & Hmedia & _)]; simpl.
    + split; [reflexivity |]. split; [exact Hk | discriminate].
    + split; [reflexivity |]. split; [exact Hk |].
      intros code r' H. now injection H as _ <-.
Qed.

Lemma faithful_answer (tmdb : TheMovieDb.t) (body : CreateBody)
      (d : TheMovieDb.Details) :
  faithful tmdb ->
  (if String.eqb (mediaType body) "movie"
   then TheMovieDb.getMovie tmdb (mediaId body)
   else TheMovieDb.getTvShow tmdb (mediaId body)) = TheMovieDb.Resolved d ->
  TheMovieDb.id d = mediaId body.
Proof.
  intros Hf. destruct (Hf (mediaId body) d) as [Hmovie Hshow].
  now destruct (String.eqb (mediaType body) "movie").
Qed.

Lemma post_catalogUnique (tmdb : TheMovieDb.t) (st : Store) (user : User.t)
      (body : CreateBody) :
  faithful tmdb ->
  catalogUnique st ->
  catalogUnique (fst (requestRoutes_post tmdb st user body)).
Proof.
  intros Hf Hu. unfold catalogUnique in *.
  destruct (post_effect tmdb st user body)
    as [[message ->] | (d & m & st1 & Hanswer & Hstep & Hout)];
    [exact Hu |].
  assert (H1 : NoDup (map Media.tmdbId (mediaTable st1))).
  { destruct Hstep as [[_ ->] | (Hnone & _ & Hk & ->)]; [exact Hu |].
    simpl. rewrite map_app. simpl.
    apply NoDup_app; [exact Hu | repeat constructor; intros [] |].
    intros a Ha [<- | []].
    apply (find_tmdbId_none _ _ Hnone).
    rewrite Hk, (faithful_answer tmdb body d Hf Hanswer) in Ha. exact Ha. }
  destruct Hout as [[message ->] | (r & -> & _)]; exact H1.
Qed.

(** Once the row exists, a whole sequence of Create calls for its catalog id
    leaves the Media table alone and attaches every Request to it. *)
Lemma run_creates_found (tmdb : TheMovieDb.t)
      (statusCode : MediaRequestStatus.t -> Z) (c : Z) (m : Media.t)
      (calls : list (User.t * CreateBody)) (st : Store) :
  Forall (fun call => mediaId (snd call) = c) calls ->
  find (fun x => Media.tmdbId x =? c) (mediaTable st) = Some m ->
  let after :=
    run tmdb statusCode st (map (fun call => (fst call, Create (snd call))) calls)
  in
  mediaTable (fst after) = mediaTable st /\
  Forall (fun resp => forall code r,
              resp = Json code (One r) -> MediaRequest.media r = m)
         (snd after).
Proof.
  revert st. induction calls as [| [user body] rest IH];
    intros st Hall Hfind; simpl.
  - split; [reflexivity | constructor].
  - inversion Hall as [| ? ? Hc Hrest]; subst. simpl in *.
    destruct (post_media_found tmdb st user body m Hfind) as [Htable Hattach].
    destruct (requestRoutes_post tmdb st user body) as [st1 r1]. simpl in *.
    assert (Hfind1 : find (fun x => Media.tmdbId x =? mediaId body)
                          (mediaTable st1) = Some m) by now rewrite Htable.
    destruct (IH st1 Hrest Hfind1) as [Htable' Hattach'].
    destruct (run tmdb statusCode st1
                  (map (fun call => (fst call, Create (snd call))) rest))
      as [st2 rs].
    simpl in *. split; [congruence |]. now constructor.
Qed.

Lemma run_cons (tmdb : TheMovieDb.t) (statusCode : MediaRequestStatus.t -> Z)
      (st : Store) (user : User.t) (op : Operation)
      (rest : list (User.t * Operation)) :
  run tmdb statusCode st ((user, op) :: rest)
  = (fst (run tmdb statusCode (fst (handle tmdb statusCode st user op)) rest),
     snd (handle tmdb statusCode st user op)
     :: snd (run tmdb statusCode (fst (handle tmdb statusCode st user op)) rest)).
Proof.
  simpl. destruct (handle tmdb statusCode st user op) as [st1 r]. simpl.
  now destruct (run tmdb statusCode st1 rest).
Qed.

Lemma handle_catalogUnique (tmdb : TheMovieDb.t)
      (statusCode : MediaRequestStatus.t -> Z) (st : Store) (user : User.t)
      (op : Operation) :
  faithful tmdb ->
  catalogUnique st ->
  catalogUnique (fst (handle tmdb statusCode st user op)).
Proof.
  intros Hf Hu. destruct op as [| body | id | id | id status]; simpl.
  - exact Hu.
  - now apply post_catalogUnique.
  - unfold requestRoutes_get.
    now destruct (RequestRepository.findOneOrFail id st).
  - unfold requestRoutes_delete.
    destruct (RequestRepository.findOneOrFail id st) as [r |]; [| exact Hu].
    now destruct (negb (User.hasPermission user MANAGE_REQUESTS)
                  && (negb (User.id (MediaRequest.requestedBy r) =? User.id user)
                      || statusAboveZero statusCode (MediaRequest.status r))).
  - unfold requestRoutes_get_status.
    now destruct (RequestRepository.findOneOrFail id st).
Qed.

Lemma run_catalogUnique (tmdb : TheMovieDb.t)
      (statusCode : MediaRequestStatus.t -> Z)
      (calls : list (User.t * Operation)) (st : Store) :
  faithful tmdb ->
  catalogUnique st ->
  catalogUnique (fst (run tmdb statusCode st calls)).
Proof.
  intros Hf. revert st.
  induction calls as [| [user op] rest IH]; intros st Hu.
  - exact Hu.
  - rewrite run_cons. simpl. apply IH. now apply handle_catalogUnique.
Qed.

(** A sequence of Create calls for one catalog id adds at most one Media
    row, none when the row was there, and the Request of every successful
    call is attached to the row the table ends up holding for that id. *)
Lemma run_creates_shared (tmdb : TheMovieDb.t)
      (statusCode : MediaRequestStatus.t -> Z) (c : Z) :
  faithful tmdb ->
  forall (calls : list (User.t * CreateBody)) (st : Store),
    catalogUnique st ->
    Forall (fun call => mediaId (snd call) = c) calls ->
    let after :=
      run tmdb statusCode st
          (map (fun call => (fst call, Create (snd call))) calls) in
    (exists extra,
        mediaTable (fst after) = mediaTable st ++ extra /\
        (List.length extra <= 1)%nat /\
        (find (fun x => Media.tmdbId x =? c) (mediaTable st) <> None ->
         extra = [])) /\
    Forall (fun resp => forall code r,
                resp = Json code (One r) ->
                filter (fun x => Media.tmdbId x =? c) (mediaTable (fst after))
                = [MediaRequest.media r])
           (snd after).
Proof.
  intros Hf calls.
  induction calls as [| [user body] rest IH]; intros st Hu Hall after.
  - unfold after. simpl. split; [| constructor].
    exists []. rewrite app_nil_r. repeat split; auto.
  - destruct (find (fun x => Media.tmdbId x =? c) (mediaTable st))
      as [m |] eqn:Hfind.
    + destruct (run_creates_found tmdb statusCode c m ((user, body) :: rest)
                                  st Hall Hfind) as [Htable Hattach].
      fold after in Htable, Hattach. split.
      * exists []. rewrite app_nil_r. repeat split; auto.
      * rewrite Htable. eapply Forall_impl; [| exact Hattach]. simpl.
        intros resp H code r Hresp. rewrite (H code r Hresp).
        apply catalogUnique_single_row; assumption.
    + pose proof (Forall_inv Hall) as Hc.
      pose proof (Forall_inv_tail Hall) as Hrest.
      simpl in Hc. subst c.
      unfold after. simpl map. rewrite run_cons. simpl handle. simpl fst. simpl snd.
      destruct (if String.eqb (mediaType body) "movie"
                then TheMovieDb.getMovie tmdb (mediaId body)
                else TheMovieDb.getTvShow tmdb (mediaId body))
        as [d | message] eqn:Hanswer.
      * destruct (post_media_created tmdb st user body d Hanswer Hfind)
          as (m & Htable & Hk & Hattach).
        pose proof (post_catalogUnique tmdb st user body Hf Hu) as Hu1.
        assert (Hfind1 :
          find (fun x => Media.tmdbId x =? mediaId body)
               (mediaTable (fst (requestRoutes_post tmdb st user body)))
          = Some m).
        { rewrite Htable. apply find_tmdbId_appended; [exact Hfind |].
          rewrite Hk. exact (faithful_answer tmdb body d Hf Hanswer). }
        destruct (run_creates_found tmdb statusCode (mediaId body) m rest
                    (fst (requestRoutes_post tmdb st user body)) Hrest Hfind1)
          as [Hsame Hrun].
        assert (Hsingle :
          filter (fun x => Media.tmdbId x =? mediaId body)
                 (mediaTable
                    (fst (run tmdb statusCode
                              (fst (requestRoutes_post tmdb st user body))
                              (map (fun call => (fst call, Create (snd call)))
                                   rest))))
          = [m]).
        { rewrite Hsame. apply catalogUnique_single_row; assumption. }
        split.
        -- exists [m]. rewrite Hsame, Htable.
           split; [reflexivity |]. split; [simpl; lia |].
           intros H. now elim H.
        -- constructor.
           ++ intros code r Hresp. rewrite Hsingle.
              now rewrite (Hattach code r Hresp).
           ++ eapply Forall_impl; [| exact Hrun]. simpl.
              intros resp H code r Hresp. rewrite Hsingle.
              now rewrite (H code r Hresp).
      * assert (Hpost : requestRoutes_post tmdb st user body
                        = (st, Next 500 message))
          by (unfold requestRoutes_post; now rewrite Hanswer).
        rewrite Hpost. simpl fst. simpl snd.
        destruct (IH st Hu Hrest) as [Hextra Hattach].
        split; [rewrite Hfind in Hextra; exact Hextra |].
        constructor; [discriminate | exact Hattach].
Qed.

(** C5. Take Create calls that all reference the catalog id [c], made one
    after the other on a store with one Media row per catalog id, with a
    metadata client that answers for the id it is asked about.  Catalog ids
    stay unique; the calls together add at most one Media row, and none when
    a row for [c] was there; the Request of every successful call is attached
    to the one row the table holds for [c]; and once the first call's lookup
    has resolved, the Media table stays as the first call left it. *)
Theorem media_row_created_once
        (tmdb : TheMovieDb.t) (statusCode : MediaRequestStatus.t -> Z)
        (st : Store) (c : Z) (calls : list (User.t * CreateBody)) :
  faithful tmdb ->
  catalogUnique st ->
  Forall (fun call => mediaId (snd call) = c) calls ->
  let after :=
    run tmdb statusCode st
        (map (fun call => (fst call, Create (snd call))) calls) in
  catalogUnique (fst after) /\
  (exists extra,
      mediaTable (fst after) = mediaTable st ++ extra /\
      (List.length extra <= 1)%nat /\
      (find (fun x => Media.tmdbId x =? c) (mediaTable st) <> None ->
       extra = [])) /\
  Forall (fun resp => forall code r,
              resp = Json code (One r) ->
              filter (fun x => Media.tmdbId x =? c) (mediaTable (fst after))
              = [MediaRequest.media r])
         (snd after) /\
  (forall user body rest d,
      calls = (user, body) :: rest ->
      (if String.eqb (mediaType body) "movie"
       then TheMovieDb.getMovie tmdb c
       else TheMovieDb.getTvShow tmdb c) = TheMovieDb.Resolved d ->
      mediaTable (fst after)
      = mediaTable (fst (requestRoutes_post tmdb st user body))).
Proof.
  intros Hf Hu Hall after.
  destruct (run_creates_shared tmdb statusCode c Hf calls st Hu Hall)
    as [Hextra Hattach].
  split; [now apply run_catalogUnique |].
  split; [exact Hextra |]. split; [exact Hattach |].
  intros user body rest d -> Hanswer.
  pose proof (Forall_inv Hall) as Hc.
  pose proof (Forall_inv_tail Hall) as Hrest.
  simpl in Hc. subst c.
  unfold after. simpl map. rewrite run_cons. simpl handle. simpl fst.
  assert (Hm : exists m,
    find (fun x => Media.tmdbId x =? mediaId body)
         (mediaTable (fst (requestRoutes_post tmdb st user body))) = Some m).
  { destruct (find (fun x => Media.tmdbId x =? mediaId body) (mediaTable st))
      as [m |] eqn:Hfind.
    - destruct (post_media_found tmdb st user body m Hfind) as [Ht _].
      exists m. now rewrite Ht.
    - destruct (post_media_created tmdb st user body d Hanswer Hfind)
        as (m & Ht & Hk & _).
      exists m. rewrite Ht. apply find_tmdbId_appended; [exact Hfind |].
      rewrite Hk. exact (faithful_answer tmdb body d Hf Hanswer). }
  destruct Hm as [m Hfind1].
  now destruct (run_creates_found tmdb statusCode (mediaId body) m rest
                  (fst (requestRoutes_post tmdb st user body)) Hrest Hfind1).
Qed.

(** ** Failures *)

(** C1 (as amended). When a handler reports a failure, the Request table and
    its id counter are as before the call.  The store as a whole is unchanged
    too, with one exception: a failing Create whose metadata lookup resolved
    and that found no Media row for the catalog id has appended that row,
    because the lookup-or-create step runs before the media type and the
    season list are examined. *)
Theorem failure_keeps_requests
        (tmdb : TheMovieDb.t) (statusCode : MediaRequestStatus.t -> Z)
        (st st' : Store) (user : User.t) (op : Operation)
        (code : Z) (message : string) :
  handle tmdb statusCode st user op = (st', Next code message) ->
  requestTable st' = requestTable st /\
  requestSeq st' = requestSeq st /\
  (st' = st \/
   exists body d m,
     op = Create body /\
     (if String.eqb (mediaType body) "movie"
      then TheMovieDb.getMovie tmdb (mediaId body)
      else TheMovieDb.getTvShow tmdb (mediaId body)) = TheMovieDb.Resolved d /\
     find (fun x => Media.tmdbId x =? mediaId body) (mediaTable st) = None /\
     Media.tmdbId m = TheMovieDb.id d /\
     mediaTable st' = mediaTable st ++ [m] /\
     mediaSeq st' = mediaSeq st + 1).
Proof.
  destruct op as [| body | id | id | id status]; simpl.
  - unfold requestRoutes_get_all. discriminate.
  - intros Hpost.
    destruct (post_effect tmdb st user body)
      as [[message' H] | (d & m & st1 & Hanswer & Hstep & Hout)].
    + rewrite H in Hpost. injection Hpost as <- _ _. auto.
    + destruct Hout as [[message' H] | (r & H & _)];
        rewrite H in Hpost; [| discriminate].
      injection Hpost as <- _ _.
      destruct Hstep as [[_ ->] | (Hnone & _ & Hk & ->)]; [auto |].
      simpl. split; [reflexivity |]. split; [reflexivity |].
      right. exists body, d, m. auto 10.
  - unfold requestRoutes_get.
    destruct (RequestRepository.findOneOrFail id st);
      intros H; injection H as <-; auto; discriminate.
  - unfold requestRoutes_delete.
    destruct (RequestRepository.findOneOrFail id st) as [r |].
    + destruct (negb (User.hasPermission user MANAGE_REQUESTS)
                && (negb (User.id (MediaRequest.requestedBy r) =? User.id user)
                    || statusAboveZero statusCode (MediaRequest.status r)));
        intros H; [injection H as <-; auto | discriminate].
    + intros H; injection H as <-; auto.
  - unfold requestRoutes_get_status.
    destruct (RequestRepository.findOneOrFail id st);
      intros H; [discriminate | injection H as <-; auto].
Qed.

(** C1 (as stated) fails: a Create with an unrecognized media type, or a TV
    Create with nothing to request, on a catalog id seen for the first time,
    reports its failure after the Media row has been saved. *)
Lemma failed_create_leaves_media_row :
  (exists st',
     requestRoutes_post Fixtures.tmdb emptyStore Fixtures.alice
       {| mediaType := "book"; mediaId := 9; seasons := [] |}
     = (st', Next 500 "Invalid media type") /\
     mediaTable emptyStore = [] /\
     mediaTable st'
     = [{| Media.id := 1; Media.tmdbId := 9; Media.tvdbId := Some 1009;
           Media.status := MediaStatus.PENDING; Media.mediaType := "book" |}])
  /\
  (exists st',
     requestRoutes_post Fixtures.tmdb emptyStore Fixtures.alice
       (Fixtures.tv 9 [])
     = (st', Next 500 "No seasons available to request") /\
     mediaTable st'
     = [{| Media.id := 1; Media.tmdbId := 9; Media.tvdbId := Some 1009;
           Media.status := MediaStatus.PENDING; Media.mediaType := "tv" |}]).
Proof.
  split; eexists; repeat split; reflexivity.
Qed.

(** ** Delete *)

Lemma delete_removes (id : Z) (st : Store) :
  RequestRepository.findOneOrFail id (RequestRepository.delete id st) = None.
Proof.
  unfold RequestRepository.findOneOrFail, RequestRepository.delete. simpl.
  induction (requestTable st) as [| x xs IH]; simpl; [reflexivity |].
  destruct (MediaRequest.id x =? id) eqn:E; simpl; [exact IH |].
  now rewrite E.
Qed.

Lemma delete_keeps_others (id : Z) (st : Store) (x : MediaRequest.t) :
  MediaRequest.id x <> id ->
  In x (requestTable st) ->
  In x (requestTable (RequestRepository.delete id st)).
Proof.
  intros Hneq Hin. simpl. apply filter_In. split; [exact Hin |].
  apply negb_true_iff. now apply Z.eqb_neq.
Qed.

(** C2. With [pending] the one status numbered at or below zero, a Delete
    call on an existing request, whose stored status is one of the three
    statuses, succeeds exactly when the caller holds the manage-requests
    capability or is the requester of a pending request: it then removes the
    row (and no other) and answers 200 with the record as it was; in every
    other case it answers 401 and the store is unchanged. *)
Theorem delete_authorization
        (tmdb : TheMovieDb.t) (statusCode : MediaRequestStatus.t -> Z)
        (st : Store) (user : User.t) (requestId : Z)
        (request : MediaRequest.t) (status : MediaRequestStatus.t) :
  pendingLowest statusCode ->
  RequestRepository.findOneOrFail requestId st = Some request ->
  MediaRequest.status request = Some status ->
  let permitted :=
    User.hasPermission user MANAGE_REQUESTS = true \/
    (requestedByCaller user request /\ status = MediaRequestStatus.PENDING) in
  (permitted ->
   handle tmdb statusCode st user (Delete requestId)
   = (RequestRepository.delete requestId st, Json 200 (One request)) /\
   RequestRepository.findOneOrFail requestId
     (RequestRepository.delete requestId st) = None /\
   (forall x, MediaRequest.id x <> requestId -> In x (requestTable st) ->
              In x (requestTable (RequestRepository.delete requestId st))) /\
   mediaTable (RequestRepository.delete requestId st) = mediaTable st) /\
  (~ permitted ->
   handle tmdb statusCode st user (Delete requestId)
   = (st, Next 401 "You do not have permission to remove this request")).
Proof.
  intros (Hpending & Happroved & Hdeclined) Hfind Hstatus permitted.
  destruct (find_request_some _ _ _ Hfind) as [_ Hid].
  unfold permitted, requestedByCaller. simpl.
  unfold requestRoutes_delete. rewrite Hfind, Hstatus, Hid. simpl.
  destruct (User.hasPermission user MANAGE_REQUESTS); simpl.
  - split; [intros _ | intros H; elim H; now left].
    split; [reflexivity |].
    split; [apply delete_removes |].
    split; [apply delete_keeps_others | reflexivity].
  - destruct (User.id (MediaRequest.requestedBy request) =? User.id user)
      eqn:Howner; simpl.
    + apply Z.eqb_eq in Howner.
      destruct status; simpl.
      * assert (E : (0 <? statusCode MediaRequestStatus.PENDING) = false)
          by (apply Z.ltb_ge; lia).
        rewrite E.
        split; [intros _ | intros H; elim H; right; now split].
        split; [reflexivity |].
        split; [apply delete_removes |].
        split; [apply delete_keeps_others | reflexivity].
      * assert (E : (0 <? statusCode MediaRequestStatus.APPROVED) = true)
          by (apply Z.ltb_lt; lia).
        rewrite E.
        split; [intros [H | [_ H]]; discriminate | reflexivity].
      * assert (E : (0 <? statusCode MediaRequestStatus.DECLINED) = true)
          by (apply Z.ltb_lt; lia).
        rewrite E.
        split; [intros [H | [_ H]]; discriminate | reflexivity].
    + apply Z.eqb_neq in Howner.
      split; [intros [H | [H _]]; [discriminate | contradiction] | reflexivity].
Qed.

(** The gate compares the status with zero, so a numbering that puts
    [pending] above zero leaves a requester without the manage-requests
    capability unable to delete even a pending request. *)
Remark delete_pending_above_zero
       (tmdb : TheMovieDb.t) (statusCode : MediaRequestStatus.t -> Z)
       (st : Store) (user : User.t) (requestId : Z) (request : MediaRequest.t) :
  0 < statusCode MediaRequestStatus.PENDING ->
  User.hasPermission user MANAGE_REQUESTS = false ->
  RequestRepository.findOneOrFail requestId st = Some request ->
  MediaRequest.status request = Some MediaRequestStatus.PENDING ->
  handle tmdb statusCode st user (Delete requestId)
  = (st, Next 401 "You do not have permission to remove this request").
Proof.
  intros Hcode Hmanage Hfind Hstatus. simpl.
  unfold requestRoutes_delete. rewrite Hfind, Hmanage, Hstatus. simpl.
  apply Z.ltb_lt in Hcode. rewrite Hcode. now rewrite orb_true_r.
Qed.

(** With the statuses numbered from one, alice cannot delete the request she
    has just made. *)
Example delete_refused_when_numbered_from_one :
  handle Fixtures.tmdb Fixtures.statusCodeFromOne Fixtures.oneMovie
         Fixtures.alice (Delete 1)
  = (Fixtures.oneMovie,
     Next 401 "You do not have permission to remove this request").
Proof.
  apply (delete_pending_above_zero
           Fixtures.tmdb Fixtures.statusCodeFromOne Fixtures.oneMovie
           Fixtures.alice 1 Fixtures.movieRequest);
    reflexivity.
Qed.

(** ** Change status *)

Lemma newStatus_other (status : string) :
  status <> "pending"%string ->
  status <> "approve"%string ->
  status <> "decline"%string ->
  newStatus status = None.
Proof.
  intros Hp Ha Hd. unfold newStatus.
  apply String.eqb_neq in Hp, Ha, Hd. now rewrite Hp, Ha, Hd.
Qed.

Lemma save_found (id : Z) (st : Store) (old new : MediaRequest.t) :
  RequestRepository.findOneOrFail id st = Some old ->
  MediaRequest.id new = MediaRequest.id old ->
  RequestRepository.findOneOrFail id (RequestRepository.save new st)
  = Some (RequestRepository.written old new).
Proof.
  unfold RequestRepository.findOneOrFail, RequestRepository.save. simpl.
  intros Hfind Hid.
  induction (requestTable st) as [| x xs IH]; simpl in *; [discriminate |].
  destruct (MediaRequest.id x =? id) eqn:E.
  - injection Hfind as ->. rewrite Hid, Z.eqb_refl. simpl.
    rewrite Hid. now rewrite E.
  - destruct (MediaRequest.id x =? MediaRequest.id new) eqn:E'.
    + apply Z.eqb_eq in E'. apply find_some in Hfind.
      destruct Hfind as [_ Hold]. apply Z.eqb_eq in Hold.
      apply Z.eqb_neq in E. congruence.
    + rewrite E. now apply IH.
Qed.

Lemma save_twice (r : MediaRequest.t) (st : Store) (s : MediaRequestStatus.t) :
  MediaRequest.status r = Some s ->
  RequestRepository.save r (RequestRepository.save r st)
  = RequestRepository.save r st.
Proof.
  intros Hs. unfold RequestRepository.save. simpl. f_equal.
  rewrite map_map. apply map_ext. intros x.
  destruct (MediaRequest.id x =? MediaRequest.id r) eqn:E.
  - rewrite (written_defined x r s Hs), Z.eqb_refl.
    apply (written_defined r r s Hs).
  - now rewrite E.
Qed.

Lemma sameButStatus_refl (r : MediaRequest.t) : sameButStatus r r.
Proof. now repeat split. Qed.

Lemma row_by_id (l : list MediaRequest.t) (x y : MediaRequest.t) :
  NoDup (map MediaRequest.id l) ->
  In x l -> In y l -> MediaRequest.id x = MediaRequest.id y -> x = y.
Proof.
  induction l as [| h t IH]; simpl; intros Hnd Hx Hy Hid; [contradiction |].
  inversion Hnd as [| ? ? Hnotin Hrest]; subst.
  destruct Hx as [-> | Hx], Hy as [-> | Hy]; auto.
  - exfalso. apply Hnotin. rewrite Hid. now apply in_map.
  - exfalso. apply Hnotin. rewrite <- Hid. now apply in_map.
Qed.

Lemma Forall2_map_pointwise (A : Type) (P : A -> A -> Prop) (f : A -> A)
      (l : list A) :
  (forall x, In x l -> P x (f x)) -> Forall2 P l (map f l).
Proof.
  induction l as [| h t IH]; simpl; intros H; constructor.
  - apply H. now left.
  - apply IH. intros x Hx. apply H. now right.
Qed.

(** C8. Change-status with target "approve" on an existing Request answers
    200 with the Request carrying status approved, which is what the table
    then holds for that id, whether the status was pending or anything else;
    a second call with "approve" gives the same answer and the same store. *)
Theorem approve_idempotent
        (st : Store) (requestId : Z) (request : MediaRequest.t) :
  RequestRepository.findOneOrFail requestId st = Some request ->
  let once := requestRoutes_get_status st requestId "approve" in
  let twice := requestRoutes_get_status (fst once) requestId "approve" in
  exists approved,
    snd once = Json 200 (One approved) /\
    MediaRequest.status approved = Some MediaRequestStatus.APPROVED /\
    sameButStatus request approved /\
    RequestRepository.findOneOrFail requestId (fst once) = Some approved /\
    fst twice = fst once /\
    snd twice = snd once.
Proof.
  intros Hfind once twice.
  unfold twice, once, requestRoutes_get_status. rewrite Hfind. simpl.
  set (approved :=
         {| MediaRequest.id := MediaRequest.id request;
            MediaRequest.type := MediaRequest.type request;
            MediaRequest.media := MediaRequest.media request;
            MediaRequest.requestedBy := MediaRequest.requestedBy request;
            MediaRequest.modifiedBy := MediaRequest.modifiedBy request;
            MediaRequest.status := newStatus "approve";
            MediaRequest.seasons := MediaRequest.seasons request |}).
  assert (Hfound :
    RequestRepository.findOneOrFail requestId
      (RequestRepository.save approved st) = Some approved).
  { rewrite (save_found requestId st request approved Hfind eq_refl).
    reflexivity. }
  exists approved.
  split; [reflexivity |]. split; [reflexivity |].
  split; [now repeat split |]. split; [exact Hfound |].
  rewrite Hfound. simpl.
  change {| MediaRequest.id := MediaRequest.id request;
            MediaRequest.type := MediaRequest.type request;
            MediaRequest.media := MediaRequest.media request;
            MediaRequest.requestedBy := MediaRequest.requestedBy request;
            MediaRequest.modifiedBy := MediaRequest.modifiedBy request;
            MediaRequest.status := newStatus "approve";
            MediaRequest.seasons := MediaRequest.seasons request |}
    with approved.
  split; [| reflexivity].
  apply (save_twice approved st MediaRequestStatus.APPROVED). reflexivity.
Qed.

(** C9. A Change-status call touches nothing but the [status] field of the
    Request it names: on a well-formed store the Media table and both
    counters are unchanged, the Request table keeps its rows in place, every
    row agrees with its former self on all fields other than [status]
    (seasons and their statuses included), rows with another id are
    identical, and the Request in the answer agrees likewise with the one
    that was loaded. *)
Theorem change_status_frame
        (st : Store) (requestId : Z) (status : string) :
  wellFormed st ->
  let after := requestRoutes_get_status st requestId status in
  mediaTable (fst after) = mediaTable st /\
  mediaSeq (fst after) = mediaSeq st /\
  requestSeq (fst after) = requestSeq st /\
  Forall2 (fun old new =>
             sameButStatus old new /\
             (MediaRequest.id old <> requestId -> new = old))
          (requestTable st) (requestTable (fst after)) /\
  (forall code updated,
      snd after = Json code (One updated) ->
      exists request,
        RequestRepository.findOneOrFail requestId st = Some request /\
        sameButStatus request updated /\
        MediaRequest.status updated = newStatus status).
Proof.
  intros Hwf after. unfold after, requestRoutes_get_status.
  destruct (RequestRepository.findOneOrFail requestId st) as [request |]
    eqn:Hfind; simpl.
  - destruct (find_request_some _ _ _ Hfind) as [Hin Hid].
    repeat split; try reflexivity.
    + apply Forall2_map_pointwise. intros x Hx.
      destruct (MediaRequest.id x =? MediaRequest.id request) eqn:E.
      * apply Z.eqb_eq in E.
        assert (x = request)
          by (apply (row_by_id _ _ _ (wf_request_nodup _ Hwf) Hx Hin E)).
        subst x. split; [now repeat split | intros H; contradiction].
      * split; [apply sameButStatus_refl | reflexivity].
    + intros code updated H. injection H as _ <-.
      exists request. split; [reflexivity |]. now repeat split.
  - repeat split; try reflexivity.
    + induction (requestTable st) as [| x xs IH]; constructor; auto.
      split; [apply sameButStatus_refl | reflexivity].
    + discriminate.
Qed.

Lemma written_undefined (row r : MediaRequest.t) :
  sameButStatus row r ->
  MediaRequest.status r = None ->
  RequestRepository.written row r = row.
Proof.
  destruct row, r. unfold sameButStatus. simpl.
  intros (-> & -> & -> & -> & -> & ->) ->. reflexivity.
Qed.

Lemma save_undefined (r : MediaRequest.t) (st : Store) (row : MediaRequest.t) :
  wellFormed st ->
  In row (requestTable st) ->
  sameButStatus row r ->
  MediaRequest.status r = None ->
  RequestRepository.save r st = st.
Proof.
  intros Hwf Hin Hsame Hnone. destruct st as [medias requests mseq rseq].
  unfold RequestRepository.save. simpl in *. f_equal.
  pose proof (wf_request_nodup _ Hwf) as Hnd. simpl in Hnd.
  assert (Hid : MediaRequest.id row = MediaRequest.id r) by apply Hsame.
  rewrite <- (map_id requests) at 2. apply map_ext_in. intros x Hx.
  destruct (MediaRequest.id x =? MediaRequest.id r) eqn:E; [| reflexivity].
  apply Z.eqb_eq in E.
  assert (x = row) by (apply (row_by_id requests); auto; congruence).
  subst x. now apply written_undefined.
Qed.

(** C10 (as amended). On an existing Request, a status path segment other
    than "pending", "approve" and "decline" does not fail the call: no case
    of the switch matches, the Request in memory gets an undefined status and
    is handed to [save], and the answer is 200 with that Request.  The row
    itself keeps the status it had, since [save] skips an undefined
    property; on a well-formed store the call leaves the store as it was. *)
Theorem unknown_status_answered_not_stored
        (st : Store) (requestId : Z) (status : string)
        (request : MediaRequest.t) :
  status <> "pending"%string ->
  status <> "approve"%string ->
  status <> "decline"%string ->
  RequestRepository.findOneOrFail requestId st = Some request ->
  exists updated,
    requestRoutes_get_status st requestId status
    = (RequestRepository.save updated st, Json 200 (One updated)) /\
    MediaRequest.status updated = None /\
    sameButStatus request updated /\
    RequestRepository.findOneOrFail requestId
      (RequestRepository.save updated st) = Some request /\
    (wellFormed st -> RequestRepository.save updated st = st).
Proof.
  intros Hp Ha Hd Hfind.
  unfold requestRoutes_get_status. rewrite Hfind.
  rewrite (newStatus_other status Hp Ha Hd).
  set (updated :=
         {| MediaRequest.id := MediaRequest.id request;
            MediaRequest.type := MediaRequest.type request;
            MediaRequest.media := MediaRequest.media request;
            MediaRequest.requestedBy := MediaRequest.requestedBy request;
            MediaRequest.modifiedBy := MediaRequest.modifiedBy request;
            MediaRequest.status := None;
            MediaRequest.seasons := MediaRequest.seasons request |}).
  assert (Hsame : sameButStatus request updated) by now repeat split.
  exists updated. split; [reflexivity |]. split; [reflexivity |].
  split; [exact Hsame |]. split.
  - rewrite (save_found requestId st request updated Hfind eq_refl).
    f_equal. now apply written_undefined.
  - intros Hwf. destruct (find_request_some _ _ _ Hfind) as [Hin _].
    now apply (save_undefined updated st request).
Qed.

(** C10 (as stated) fails on what is persisted: after a Change-status call
    with the segment "available" the answer carries an undefined status, but
    the stored request is the one that was there, still pending. *)
Lemma unknown_status_row_keeps_status :
  exists updated,
    requestRoutes_get_status Fixtures.oneMovie 1 "available"
    = (Fixtures.oneMovie, Json 200 (One updated)) /\
    MediaRequest.status updated = None /\
    RequestRepository.findOneOrFail 1 Fixtures.oneMovie
    = Some Fixtures.movieRequest /\
    MediaRequest.status Fixtures.movieRequest
    = Some MediaRequestStatus.PENDING.
Proof.
  eexists. repeat split; reflexivity.
Qed.

(** ** The properties at work on concrete calls *)

Lemma failure_keeps_requests_witness :
  handle Fixtures.tmdb Fixtures.statusCode emptyStore Fixtures.alice
         (Create (Fixtures.book 9))
  = (fst (requestRoutes_post Fixtures.tmdb emptyStore Fixtures.alice
                             (Fixtures.book 9)),
     Next 500 "Invalid media type") /\
  requestTable (fst (requestRoutes_post Fixtures.tmdb emptyStore Fixtures.alice
                                        (Fixtures.book 9)))
  = requestTable emptyStore /\
  requestSeq (fst (requestRoutes_post Fixtures.tmdb emptyStore Fixtures.alice
                                      (Fixtures.book 9)))
  = requestSeq emptyStore.
Proof.
  split; [reflexivity |].
  destruct (failure_keeps_requests
              Fixtures.tmdb Fixtures.statusCode emptyStore
              (fst (requestRoutes_post Fixtures.tmdb emptyStore Fixtures.alice
                                       (Fixtures.book 9)))
              Fixtures.alice (Create (Fixtures.book 9))
              500 "Invalid media type" eq_refl) as (Htable & Hseq & _).
  split; assumption.
Defined.

Lemma delete_authorization_witness :
  pendingLowest Fixtures.statusCode /\
  RequestRepository.findOneOrFail 1 Fixtures.oneMovie
  = Some Fixtures.movieRequest /\
  handle Fixtures.tmdb Fixtures.statusCode Fixtures.oneMovie Fixtures.alice
         (Delete 1)
  = (RequestRepository.delete 1 Fixtures.oneMovie,
     Json 200 (One Fixtures.movieRequest)) /\
  handle Fixtures.tmdb Fixtures.statusCode Fixtures.oneMovie Fixtures.bob
         (Delete 1)
  = (Fixtures.oneMovie,
     Next 401 "You do not have permission to remove this request") /\
  handle Fixtures.tmdb Fixtures.statusCode Fixtures.approvedMovie
         Fixtures.alice (Delete 1)
  = (Fixtures.approvedMovie,
     Next 401 "You do not have permission to remove this request") /\
  handle Fixtures.tmdb Fixtures.statusCode Fixtures.approvedMovie
         Fixtures.admin (Delete 1)
  = (RequestRepository.delete 1 Fixtures.approvedMovie,
     Json 200 (One Fixtures.approvedRequest)).
Proof.
  assert (Hcode : pendingLowest Fixtures.statusCode)
    by (unfold pendingLowest; simpl; lia).
  split; [exact Hcode |]. split; [reflexivity |].
  split; [| split; [| split]].
  - destruct (delete_authorization
                Fixtures.tmdb Fixtures.statusCode Fixtures.oneMovie
                Fixtures.alice 1 Fixtures.movieRequest
                MediaRequestStatus.PENDING Hcode eq_refl eq_refl)
      as [Hyes _].
    destruct Hyes as [H _]; [right; split; reflexivity | exact H].
  - destruct (delete_authorization
                Fixtures.tmdb Fixtures.statusCode Fixtures.oneMovie
                Fixtures.bob 1 Fixtures.movieRequest
                MediaRequestStatus.PENDING Hcode eq_refl eq_refl)
      as [_ Hno].
    apply Hno. intros [H | [H _]]; discriminate.
  - destruct (delete_authorization
                Fixtures.tmdb Fixtures.statusCode Fixtures.approvedMovie
                Fixtures.alice 1 Fixtures.approvedRequest
                MediaRequestStatus.APPROVED Hcode eq_refl eq_refl)
      as [_ Hno].
    apply Hno. intros [H | [_ H]]; discriminate.
  - destruct (delete_authorization
                Fixtures.tmdb Fixtures.statusCode Fixtures.approvedMovie
                Fixtures.admin 1 Fixtures.approvedRequest
                MediaRequestStatus.APPROVED Hcode eq_refl eq_refl)
      as [Hyes _].
    destruct Hyes as [H _]; [left; reflexivity | exact H].
Defined.

Lemma tv_create_remaining_seasons_witness :
  exists st' request,
    requestRoutes_post Fixtures.tmdb Fixtures.twoSeasons Fixtures.bob
                       (Fixtures.tv 5 [2; 3])
    = (st', Json 201 (One request)) /\
    MediaRequest.seasonNumbers request = [3] /\
    List.length (requestTable st') = 2%nat.
Proof.
  destruct (tv_create_remaining_seasons
              Fixtures.tmdb Fixtures.twoSeasons Fixtures.bob
              (Fixtures.tv 5 [2; 3])
              {| TheMovieDb.id := 5;
                 TheMovieDb.external_ids :=
                   {| TheMovieDb.tvdb_id := Some 1005 |} |}
              eq_refl eq_refl) as (_ & _ & Hsome).
  destruct Hsome as (st' & request & Hpost & Htable & _ & Hseasons & _);
    [discriminate |].
  exists st', request. split; [exact Hpost |]. split; [exact Hseasons |].
  rewrite Htable, length_app. reflexivity.
Defined.

Lemma create_keeps_seasons_distinct_witness :
  seasonsDistinct
    (fst (requestRoutes_post Fixtures.tmdb Fixtures.twoSeasons Fixtures.bob
                             (Fixtures.tv 5 [2; 3]))).
Proof.
  assert (Hnodup : forall a b : Z, a <> b -> NoDup [a; b]).
  { intros a b Hab. constructor.
    - simpl. intros [H | []]. congruence.
    - constructor; [intros [] | constructor]. }
  apply create_keeps_seasons_distinct.
  - apply post_wellFormed, emptyStore_wellFormed.
  - apply create_keeps_seasons_distinct.
    + exact emptyStore_wellFormed.
    + exact emptyStore_seasonsDistinct.
    + apply Hnodup. discriminate.
  - apply Hnodup. discriminate.
Defined.

Lemma media_row_created_once_witness :
  exists m,
    mediaTable
      (fst (run Fixtures.tmdb Fixtures.statusCode emptyStore
                [(Fixtures.alice, Create (Fixtures.movie 550));
                 (Fixtures.bob, Create (Fixtures.movie 550))]))
    = [m] /\
    Forall (fun resp => forall code r,
                resp = Json code (One r) -> MediaRequest.media r = m)
           (snd (run Fixtures.tmdb Fixtures.statusCode emptyStore
                     [(Fixtures.alice, Create (Fixtures.movie 550));
                      (Fixtures.bob, Create (Fixtures.movie 550))])) /\
    List.length
      (requestTable
         (fst (run Fixtures.tmdb Fixtures.statusCode emptyStore
                   [(Fixtures.alice, Create (Fixtures.movie 550));
                    (Fixtures.bob, Create (Fixtures.movie 550))])))
    = 2%nat.
Proof.
  assert (Hf : faithful Fixtures.tmdb).
  { intros k d. split; intros H; injection H as <-; reflexivity. }
  assert (Hcalls : Forall (fun call : User.t * CreateBody =>
                             mediaId (snd call) = 550)
                          [(Fixtures.alice, Fixtures.movie 550);
                           (Fixtures.bob, Fixtures.movie 550)])
    by (repeat constructor).
  destruct (media_row_created_once
              Fixtures.tmdb Fixtures.statusCode emptyStore 550
              [(Fixtures.alice, Fixtures.movie 550);
               (Fixtures.bob, Fixtures.movie 550)]
              Hf emptyStore_catalogUnique Hcalls)
    as (_ & _ & Hattach & Hfirst).
  pose proof (Hfirst Fixtures.alice (Fixtures.movie 550)
                     [(Fixtures.bob, Fixtures.movie 550)]
                     {| TheMovieDb.id := 550;
                        TheMovieDb.external_ids :=
                          {| TheMovieDb.tvdb_id := None |} |}
                     eq_refl eq_refl) as Htable.
  cbn [map fst snd] in Htable, Hattach.
  eexists. split; [| split].
  - rewrite Htable. reflexivity.
  - eapply Forall_impl; [| exact Hattach]. simpl.
    intros resp H code r Hresp. specialize (H code r Hresp).
    injection H as H. now symmetry.
  - reflexivity.
Defined.

Lemma movie_create_one_request_witness :
  exists st' request,
    requestRoutes_post Fixtures.tmdb emptyStore Fixtures.alice
                       (Fixtures.movie 550)
    = (st', Json 201 (One request)) /\
    MediaRequest.status request = Some MediaRequestStatus.PENDING /\
    Media.tmdbId (MediaRequest.media request) = 550 /\
    requestTable st' = [request].
Proof.
  pose proof (movie_create_one_request
                Fixtures.tmdb emptyStore Fixtures.alice (Fixtures.movie 550)
                eq_refl) as H.
  simpl in H.
  destruct H as (st' & request & Hpost & Htable & _ & _ & Hstatus & _ & Hid & _).
  exists st', request. split; [exact Hpost |].
  split; [exact Hstatus |]. split; [now apply Hid | exact Htable].
Defined.

Lemma approve_idempotent_witness :
  exists approved,
    snd (requestRoutes_get_status Fixtures.oneMovie 1 "approve")
    = Json 200 (One approved) /\
    MediaRequest.status approved = Some MediaRequestStatus.APPROVED /\
    requestRoutes_get_status Fixtures.approvedMovie 1 "approve"
    = (Fixtures.approvedMovie, Json 200 (One approved)).
Proof.
  destruct (approve_idempotent Fixtures.oneMovie 1 Fixtures.movieRequest
                               eq_refl)
    as (approved & Honce & Hstatus & _ & _ & Hstore & Hanswer).
  exists approved. split; [exact Honce |]. split; [exact Hstatus |].
  unfold Fixtures.approvedMovie.
  rewrite (surjective_pairing
             (requestRoutes_get_status
                (fst (requestRoutes_get_status Fixtures.oneMovie 1 "approve"))
                1 "approve")).
  rewrite Hstore, Hanswer, Honce. reflexivity.
Defined.

Lemma change_status_frame_witness :
  Forall2 (fun old new =>
             sameButStatus old new /\ (MediaRequest.id old <> 1 -> new = old))
          (requestTable Fixtures.twoSeasons)
          (requestTable
             (fst (requestRoutes_get_status Fixtures.twoSeasons 1 "decline")))
  /\
  mediaTable (fst (requestRoutes_get_status Fixtures.twoSeasons 1 "decline"))
  = mediaTable Fixtures.twoSeasons.
Proof.
  destruct (change_status_frame Fixtures.twoSeasons 1 "decline"
              (post_wellFormed Fixtures.tmdb emptyStore Fixtures.alice
                               (Fixtures.tv 5 [1; 2]) emptyStore_wellFormed))
    as (Hmedia & _ & _ & Hrows & _).
  split; [exact Hrows | exact Hmedia].
Defined.

Lemma unknown_status_answered_not_stored_witness :
  exists updated,
    requestRoutes_get_status Fixtures.approvedMovie 1 "available"
    = (RequestRepository.save updated Fixtures.approvedMovie,
       Json 200 (One updated)) /\
    MediaRequest.status updated = None /\
    RequestRepository.findOneOrFail 1
      (RequestRepository.save updated Fixtures.approvedMovie)
    = Some Fixtures.approvedRequest.
Proof.
  destruct (unknown_status_answered_not_stored
              Fixtures.approvedMovie 1 "available" Fixtures.approvedRequest)
    as (updated & Hcall & Hstatus & _ & Hrow & _);
    try discriminate; [reflexivity |].
  exists updated. repeat split; assumption.
Defined.

(** ** Further properties of the handlers *)

Lemma find_app_none (A : Type) (p : A -> bool) (l l' : list A) :
  find p l = None -> find p (l ++ l') = find p l'.
Proof.
  induction l as [| x xs IH]; simpl; [reflexivity |].
  destruct (p x); [discriminate | exact IH].
Qed.

Lemma find_app_some (A : Type) (p : A -> bool) (l l' : list A) (a : A) :
  find p l = Some a -> find p (l ++ l') = Some a.
Proof.
  induction l as [| x xs IH]; simpl; [discriminate |].
  destruct (p x); [trivial | exact IH].
Qed.

Lemma find_request_none (id : Z) (st : Store) :
  (forall r, In r (requestTable st) -> MediaRequest.id r <> id) ->
  RequestRepository.findOneOrFail id st = None.
Proof.
  unfold RequestRepository.findOneOrFail. intros Hall.
  destruct (find (fun r => MediaRequest.id r =? id) (requestTable st))
    as [r |] eqn:Hfind; [| reflexivity].
  apply find_some in Hfind. destruct Hfind as [Hin Heq].
  apply Z.eqb_eq in Heq. now elim (Hall r Hin).
Qed.

(** What a successful Create hands back: a 201 with the Request it appended
    under the next id, made by the caller. *)
Lemma post_created (tmdb : TheMovieDb.t) (st st' : Store) (user : User.t)
      (body : CreateBody) (code : Z) (payload : Payload) :
  requestRoutes_post tmdb st user body = (st', Json code payload) ->
  exists r,
    payload = One r /\
    code = 201 /\
    requestTable st' = requestTable st ++ [r] /\
    requestSeq st' = requestSeq st + 1 /\
    MediaRequest.id r = requestSeq st /\
    MediaRequest.requestedBy r = user /\
    MediaRequest.status r = Some (creationStatus user).
Proof.
  unfold_post.
  destruct (if String.eqb (mediaType body) "movie"
            then TheMovieDb.getMovie tmdb (mediaId body)
            else TheMovieDb.getTvShow tmdb (mediaId body)) as [d | message];
    [| discriminate].
  destruct (find (fun m => Media.tmdbId m =? mediaId body) (mediaTable st))
    as [m |]; simpl;
    (destruct (String.eqb (mediaType body) "movie");
     [intros H; injection H as <- <- <-; eexists; repeat split; reflexivity |];
     destruct (String.eqb (mediaType body) "tv"); [| discriminate];
     match goal with
     | |- context [(List.length ?l =? 0)%nat] =>
         destruct (List.length l =? 0)%nat; [discriminate |]
     end;
     intros H; injection H as <- <- <-; eexists; repeat split; reflexivity).
Qed.

(** X1. On a well-formed store, the Request a successful Create answers with
    is the one Get by id then returns for its id, and every request that
    could be fetched before the Create is still fetched unchanged. *)
Theorem get_after_create
        (tmdb : TheMovieDb.t) (st st' : Store) (user : User.t)
        (body : CreateBody) (code : Z) (request : MediaRequest.t) :
  wellFormed st ->
  requestRoutes_post tmdb st user body = (st', Json code (One request)) ->
  requestRoutes_get st' (MediaRequest.id request)
  = (st', Json 200 (One request)) /\
  forall id old,
    requestRoutes_get st id = (st, Json 200 (One old)) ->
    requestRoutes_get st' id = (st', Json 200 (One old)).
Proof.
  intros Hwf Hpost.
  destruct (post_created tmdb st st' user body code (One request) Hpost)
    as (r & Hr & _ & Htable & _ & Hid & _).
  injection Hr as <-.
  unfold requestRoutes_get, RequestRepository.findOneOrFail.
  rewrite Htable. split.
  - rewrite find_app_none.
    + simpl. now rewrite Z.eqb_refl.
    + apply (find_request_none (MediaRequest.id request) st).
      intros x Hx. pose proof (wf_request_ids _ Hwf x Hx). lia.
  - intros id old.
    destruct (find (fun r => MediaRequest.id r =? id) (requestTable st))
      as [x |] eqn:Hfind; [| discriminate].
    intros H. injection H as ->.
    now rewrite (find_app_some _ _ _ _ _ Hfind).
Qed.

(** X2. Once a Delete call has answered for a request id, the request is
    gone for every handler: Get, Delete and Change-status on that id all
    answer 404 "Request not found" and leave the store alone. *)
Theorem gone_after_delete
        (statusCode : MediaRequestStatus.t -> Z) (st st' : Store)
        (user : User.t) (requestId : Z) (code : Z) (payload : Payload) :
  requestRoutes_delete statusCode st user requestId = (st', Json code payload) ->
  requestRoutes_get st' requestId = (st', Next 404 "Request not found") /\
  (forall other,
      requestRoutes_delete statusCode st' other requestId
      = (st', Next 404 "Request not found")) /\
  (forall status,
      requestRoutes_get_status st' requestId status
      = (st', Next 404 "Request not found")).
Proof.
  unfold requestRoutes_delete.
  destruct (RequestRepository.findOneOrFail requestId st) as [r |] eqn:Hfind;
    [| discriminate].
  destruct (find_request_some _ _ _ Hfind) as [_ Hid].
  destruct (negb (User.hasPermission user MANAGE_REQUESTS)
            && (negb (User.id (MediaRequest.requestedBy r) =? User.id user)
                || statusAboveZero statusCode (MediaRequest.status r)));
    [discriminate |].
  intros H. injection H as <- _ _. rewrite Hid.
  pose proof (delete_removes requestId st) as Hgone.
  unfold requestRoutes_get, requestRoutes_get_status.
  rewrite Hgone. repeat split; reflexivity.
Qed.

(** X3. Get by id never changes the store.  It answers 200 with a stored
    request whose id is the one asked for, or, when no stored request has
    that id, 404 "Request not found". *)
Theorem get_by_id (st : Store) (requestId : Z) :
  fst (requestRoutes_get st requestId) = st /\
  ((exists request,
       snd (requestRoutes_get st requestId) = Json 200 (One request) /\
       In request (requestTable st) /\
       MediaRequest.id request = requestId) \/
   (snd (requestRoutes_get st requestId) = Next 404 "Request not found" /\
    forall r, In r (requestTable st) -> MediaRequest.id r <> requestId)).
Proof.
  unfold requestRoutes_get.
  destruct (RequestRepository.findOneOrFail requestId st) as [r |] eqn:Hfind;
    simpl; (split; [reflexivity |]).
  - left. exists r. destruct (find_request_some _ _ _ Hfind). auto.
  - right. split; [reflexivity |]. intros r Hin Heq.
    unfold RequestRepository.findOneOrFail in Hfind.
    pose proof (find_none _ _ Hfind r Hin) as H. simpl in H.
    apply Z.eqb_neq in H. contradiction.
Qed.

(** X4. When no stored request has the id, Delete and Change-status answer
    404 "Request not found" for every caller and every status segment, and
    change nothing; the caller's permissions are not even consulted. *)
Theorem missing_id_not_found
        (statusCode : MediaRequestStatus.t -> Z) (st : Store) (requestId : Z) :
  (forall r, In r (requestTable st) -> MediaRequest.id r <> requestId) ->
  (forall user,
      requestRoutes_delete statusCode st user requestId
      = (st, Next 404 "Request not found")) /\
  (forall status,
      requestRoutes_get_status st requestId status
      = (st, Next 404 "Request not found")).
Proof.
  intros Hall. pose proof (find_request_none requestId st Hall) as Hnone.
  unfold requestRoutes_delete, requestRoutes_get_status.
  rewrite Hnone. split; reflexivity.
Qed.

(** X5. A caller holding the manage-requests capability deletes any existing
    request, whatever its status (undefined included), whoever made it and
    however the statuses are numbered. *)
Theorem manager_deletes_any
        (statusCode : MediaRequestStatus.t -> Z) (st : Store) (user : User.t)
        (requestId : Z) (request : MediaRequest.t) :
  User.hasPermission user MANAGE_REQUESTS = true ->
  RequestRepository.findOneOrFail requestId st = Some request ->
  requestRoutes_delete statusCode st user requestId
  = (RequestRepository.delete requestId st, Json 200 (One request)).
Proof.
  intros Hmanage Hfind.
  destruct (find_request_some _ _ _ Hfind) as [_ Hid].
  unfold requestRoutes_delete. rewrite Hfind, Hmanage, Hid. reflexivity.
Qed.

(** X6. A caller without the manage-requests capability who is not the
    requester never deletes a request: the answer is 401 and the store is
    unchanged, whatever the request's status and however the statuses are
    numbered. *)
Theorem stranger_never_deletes
        (statusCode : MediaRequestStatus.t -> Z) (st : Store) (user : User.t)
        (requestId : Z) (request : MediaRequest.t) :
  User.hasPermission user MANAGE_REQUESTS = false ->
  RequestRepository.findOneOrFail requestId st = Some request ->
  User.id (MediaRequest.requestedBy request) <> User.id user ->
  requestRoutes_delete statusCode st user requestId
  = (st, Next 401 "You do not have permission to remove this request").
Proof.
  intros Hmanage Hfind Hother.
  unfold requestRoutes_delete. rewrite Hfind, Hmanage.
  apply Z.eqb_neq in Hother. rewrite Hother. reflexivity.
Qed.

Lemma save_over (a b : MediaRequest.t) (st : Store)
      (s : MediaRequestStatus.t) :
  MediaRequest.id a = MediaRequest.id b ->
  MediaRequest.status b = Some s ->
  RequestRepository.save b (RequestRepository.save a st)
  = RequestRepository.save b st.
Proof.
  intros Hid Hs. unfold RequestRepository.save. simpl. f_equal.
  rewrite map_map. apply map_ext. intros x. rewrite Hid.
  destruct (MediaRequest.id x =? MediaRequest.id b) eqn:E.
  - simpl. rewrite Hid, Z.eqb_refl.
    rewrite (written_defined x b s Hs).
    apply (written_defined _ b s Hs).
  - now rewrite E.
Qed.

(** X7. Change-status has no memory: on an existing request, a call with
    any segment [first] followed by a call with [second], one of "pending",
    "approve" and "decline", leaves the same store and gives the same answer
    as the call with [second] alone.  Any status can thus be reached from
    any other, and the stored status is the one [second] maps to. *)
Theorem change_status_last_wins
        (st : Store) (requestId : Z) (request : MediaRequest.t)
        (first second : string) :
  second = "pending"%string \/ second = "approve"%string
  \/ second = "decline"%string ->
  RequestRepository.findOneOrFail requestId st = Some request ->
  requestRoutes_get_status
    (fst (requestRoutes_get_status st requestId first)) requestId second
  = requestRoutes_get_status st requestId second /\
  exists updated target,
    RequestRepository.findOneOrFail requestId
      (fst (requestRoutes_get_status st requestId second)) = Some updated /\
    newStatus second = Some target /\
    MediaRequest.status updated = Some target.
Proof.
  intros Hsecond Hfind.
  assert (Htarget : exists target, newStatus second = Some target)
    by (destruct Hsecond as [-> | [-> | ->]]; eexists; reflexivity).
  destruct Htarget as [target Htarget].
  unfold requestRoutes_get_status at 2 3 4.
  rewrite Hfind. simpl fst.
  set (r1 := {| MediaRequest.id := MediaRequest.id request;
                MediaRequest.type := MediaRequest.type request;
                MediaRequest.media := MediaRequest.media request;
                MediaRequest.requestedBy := MediaRequest.requestedBy request;
                MediaRequest.modifiedBy := MediaRequest.modifiedBy request;
                MediaRequest.status := newStatus first;
                MediaRequest.seasons := MediaRequest.seasons request |}).
  set (r2 := {| MediaRequest.id := MediaRequest.id request;
                MediaRequest.type := MediaRequest.type request;
                MediaRequest.media := MediaRequest.media request;
                MediaRequest.requestedBy := MediaRequest.requestedBy request;
                MediaRequest.modifiedBy := MediaRequest.modifiedBy request;
                MediaRequest.status := newStatus second;
                MediaRequest.seasons := MediaRequest.seasons request |}).
  assert (Hs2 : MediaRequest.status r2 = Some target) by exact Htarget.
  pose proof (save_found requestId st request r1 Hfind eq_refl) as H1.
  split.
  - unfold requestRoutes_get_status. rewrite H1. simpl.
    fold r2. now rewrite (save_over r1 r2 st target eq_refl Hs2).
  - exists r2, target.
    rewrite (save_found requestId st request r2 Hfind eq_refl).
    rewrite (written_defined request r2 target Hs2). auto.
Qed.

(** X8. A Create whose media type is neither "movie" nor "tv" is looked up
    as a TV show and always fails with a 500, without touching the Request
    table: with the lookup's own message and an untouched store when the
    lookup throws, with "Invalid media type" when it resolves. *)
Theorem unknown_media_type_fails
        (tmdb : TheMovieDb.t) (st : Store) (user : User.t) (body : CreateBody) :
  mediaType body <> "movie"%string ->
  mediaType body <> "tv"%string ->
  exists st' message,
    requestRoutes_post tmdb st user body = (st', Next 500 message) /\
    requestTable st' = requestTable st /\
    match TheMovieDb.getTvShow tmdb (mediaId body) with
    | TheMovieDb.Thrown thrown => message = thrown /\ st' = st
    | TheMovieDb.Resolved _ => message = "Invalid media type"%string
    end.
Proof.
  intros Hmovie Htv. apply String.eqb_neq in Hmovie, Htv.
  unfold_post. rewrite Hmovie, Htv.
  destruct (TheMovieDb.getTvShow tmdb (mediaId body)) as [d | thrown].
  - destruct (find (fun m => Media.tmdbId m =? mediaId body) (mediaTable st));
      simpl; do 2 eexists; repeat split; reflexivity.
  - do 2 eexists. repeat split; reflexivity.
Qed.

(** X9. A TV Create with an empty season list never creates a Request: it
    fails with a 500, "No seasons available to request" when the lookup
    resolves, the lookup's own message when it throws. *)
Theorem tv_without_seasons_fails
        (tmdb : TheMovieDb.t) (st : Store) (user : User.t) (body : CreateBody) :
  mediaType body = "tv"%string ->
  seasons body = [] ->
  exists st' message,
    requestRoutes_post tmdb st user body = (st', Next 500 message) /\
    requestTable st' = requestTable st /\
    match TheMovieDb.getTvShow tmdb (mediaId body) with
    | TheMovieDb.Thrown thrown => message = thrown /\ st' = st
    | TheMovieDb.Resolved _ =>
        message = "No seasons available to request"%string
    end.
Proof.
  intros Htv Hempty. unfold_post. rewrite Htv, Hempty. simpl.
  destruct (TheMovieDb.getTvShow tmdb (mediaId body)) as [d | thrown].
  - destruct (find (fun m => Media.tmdbId m =? mediaId body) (mediaTable st));
      simpl; do 2 eexists; repeat split; reflexivity.
  - do 2 eexists. repeat split; reflexivity.
Qed.

Lemma orderByIdDesc_head (l : list MediaRequest.t) (r : MediaRequest.t) :
  In r l ->
  (forall x, In x l -> x = r \/ MediaRequest.id x < MediaRequest.id r) ->
  exists rest, orderByIdDesc l = r :: rest.
Proof.
  intros Hin Hmax.
  pose proof (orderByIdDesc_perm l) as Hperm.
  pose proof (orderByIdDesc_sorted l) as Hsorted.
  unfold descendingById in Hsorted.
  destruct (orderByIdDesc l) as [| h t].
  - apply (Permutation_in _ Hperm) in Hin. contradiction.
  - assert (Hh : In h l)
      by (apply (Permutation_in _ (Permutation_sym Hperm)); now left).
    destruct (Hmax h Hh) as [-> | Hlt]; [now exists t |].
    apply (Permutation_in _ Hperm) in Hin.
    destruct Hin as [-> | Hin]; [now exists t |].
    inversion Hsorted as [| ? ? _ Hall]; subst.
    rewrite Forall_forall in Hall. specialize (Hall r Hin). simpl in Hall. lia.
Qed.

(** X10. On a well-formed store, right after a successful Create the List
    answer of the caller who made it starts with the created Request, whether
    or not the caller holds the manage-requests capability. *)
Theorem list_starts_with_created
        (tmdb : TheMovieDb.t) (st st' : Store) (user : User.t)
        (body : CreateBody) (code : Z) (request : MediaRequest.t) :
  wellFormed st ->
  requestRoutes_post tmdb st user body = (st', Json code (One request)) ->
  exists rest,
    requestRoutes_get_all st' user = (st', Json 200 (Many (request :: rest))).
Proof.
  intros Hwf Hpost.
  destruct (post_created tmdb st st' user body code (One request) Hpost)
    as (r & Hr & _ & Htable & _ & Hid & Hby & _).
  injection Hr as <-.
  assert (Hnewest : forall x, In x (requestTable st') ->
             x = request \/ MediaRequest.id x < MediaRequest.id request).
  { intros x Hx. rewrite Htable in Hx. apply in_app_or in Hx.
    destruct Hx as [Hx | [<- | []]]; [right | now left].
    pose proof (wf_request_ids _ Hwf x Hx). lia. }
  assert (Hin : In request (requestTable st'))
    by (rewrite Htable; apply in_or_app; right; now left).
  unfold requestRoutes_get_all, RequestRepository.find.
  destruct (User.hasPermission user MANAGE_REQUESTS).
  - destruct (orderByIdDesc_head (requestTable st') request Hin Hnewest)
      as [rest ->].
    eexists. simpl. reflexivity.
  - set (own := filter _ (requestTable st')).
    assert (Hown : In request own).
    { unfold own. apply filter_In. split; [exact Hin |].
      rewrite Hby. apply Z.eqb_refl. }
    destruct (orderByIdDesc_head own request Hown) as [rest ->].
    + intros x Hx. unfold own in Hx. apply filter_In in Hx.
      apply Hnewest. tauto.
    + eexists. simpl. reflexivity.
Qed.

Lemma handle_media_grows (tmdb : TheMovieDb.t)
      (statusCode : MediaRequestStatus.t -> Z) (st : Store) (user : User.t)
      (op : Operation) :
  exists extra,
    mediaTable (fst (handle tmdb statusCode st user op))
    = mediaTable st ++ extra /\
    ((forall body, op <> Create body) -> extra = []).
Proof.
  destruct op as [| body | id | id | id status]; simpl.
  - exists []. now rewrite app_nil_r.
  - destruct (post_effect tmdb st user body)
      as [[message ->] | (d & m & st1 & _ & Hstep & Hout)].
    + exists []. simpl. rewrite app_nil_r. split; [reflexivity |].
      intros _. reflexivity.
    + assert (H1 : exists extra, mediaTable st1 = mediaTable st ++ extra).
      { destruct Hstep as [[_ ->] | (_ & _ & _ & ->)].
        - exists []. now rewrite app_nil_r.
        - now exists [m]. }
      destruct H1 as [extra H1]. exists extra.
      split; [| intros H; now elim (H body)].
      destruct Hout as [[message ->] | (r & -> & _)]; exact H1.
  - exists []. rewrite app_nil_r. unfold requestRoutes_get.
    now destruct (RequestRepository.findOneOrFail id st).
  - exists []. rewrite app_nil_r. unfold requestRoutes_delete.
    destruct (RequestRepository.findOneOrFail id st) as [r |]; [| now split].
    now destruct (negb (User.hasPermission user MANAGE_REQUESTS)
                  && (negb (User.id (MediaRequest.requestedBy r) =? User.id user)
                      || statusAboveZero statusCode (MediaRequest.status r))).
  - exists []. rewrite app_nil_r. unfold requestRoutes_get_status.
    now destruct (RequestRepository.findOneOrFail id st).
Qed.

(** X11. No handler removes or rewrites a Media row: after any sequence of
    calls the Media table is the former table followed by the rows created
    in between, so deleting the requests of a title leaves its Media row
    behind.  A sequence without a Create leaves the Media table as it was. *)
Theorem media_rows_persist
        (tmdb : TheMovieDb.t) (statusCode : MediaRequestStatus.t -> Z)
        (calls : list (User.t * Operation)) (st : Store) :
  exists extra,
    mediaTable (fst (run tmdb statusCode st calls)) = mediaTable st ++ extra /\
    (Forall (fun call => forall body, snd call <> Create body) calls ->
     extra = []).
Proof.
  revert st. induction calls as [| [user op] rest IH]; intros st.
  - exists []. simpl. rewrite app_nil_r. split; [reflexivity | trivial].
  - rewrite run_cons. simpl fst.
    destruct (handle_media_grows tmdb statusCode st user op)
      as (extra1 & H1 & Hnone1).
    destruct (IH (fst (handle tmdb statusCode st user op)))
      as (extra2 & H2 & Hnone2).
    exists (extra1 ++ extra2). rewrite H2, H1, app_assoc.
    split; [reflexivity |].
    intros Hall. inversion Hall as [| ? ? Hop Hrest]; subst.
    rewrite (Hnone1 Hop), (Hnone2 Hrest). reflexivity.
Qed.

(** X12. Every store reached from the empty one by any sequence of calls is
    well formed: generated ids lie below the counters, no two requests share
    an id, and every request refers to a row of the Media table. *)
Theorem reachable_stores_wellFormed
        (tmdb : TheMovieDb.t) (statusCode : MediaRequestStatus.t -> Z)
        (calls : list (User.t * Operation)) :
  wellFormed (fst (run tmdb statusCode emptyStore calls)).
Proof.
  apply run_wellFormed. exact emptyStore_wellFormed.
Qed.

(** X13. While there are at most twenty requests to show, List leaves none
    out: the answer of a caller holding the manage-requests capability is a
    rearrangement of the whole Request table, and the answer of any other
    caller a rearrangement of the requests that caller made. *)
Theorem list_complete_within_limit (st : Store) (user : User.t) :
  let visible :=
    if User.hasPermission user MANAGE_REQUESTS then requestTable st
    else filter (fun r => User.id (MediaRequest.requestedBy r) =? User.id user)
                (requestTable st) in
  (List.length visible <= 20)%nat ->
  exists requests,
    requestRoutes_get_all st user = (st, Json 200 (Many requests)) /\
    Permutation visible requests.
Proof.
  intros visible Hfew. unfold requestRoutes_get_all, RequestRepository.find.
  unfold visible in *.
  destruct (User.hasPermission user MANAGE_REQUESTS);
    (eexists; split; [reflexivity |];
     rewrite firstn_all2;
     [apply orderByIdDesc_perm
     | now rewrite <- (Permutation_length (orderByIdDesc_perm _))]).
Qed.

(** The two outcomes of a TV Create whose lookup resolves. *)
Lemma post_tv (tmdb : TheMovieDb.t) (st : Store) (user : User.t)
      (body : CreateBody) (d : TheMovieDb.Details) :
  mediaType body = "tv"%string ->
  TheMovieDb.getTvShow tmdb (mediaId body) = TheMovieDb.Resolved d ->
  (minus (seasons body) (alreadyRequested st (mediaId body)) = [] /\
   exists st',
     requestRoutes_post tmdb st user body
     = (st', Next 500 "No seasons available to request")) \/
  (minus (seasons body) (alreadyRequested st (mediaId body)) <> [] /\
   exists st' r,
     requestRoutes_post tmdb st user body = (st', Json 201 (One r)) /\
     MediaRequest.seasonNumbers r
     = minus (seasons body) (alreadyRequested st (mediaId body))).
Proof.
  intros Htv Hshow. unfold_post. rewrite Htv, Hshow. simpl.
  unfold alreadyRequested.
  destruct (find (fun x => Media.tmdbId x =? mediaId body) (mediaTable st))
    as [found |]; simpl.
  - rewrite fold_left_app_flat_map. simpl.
    fold (mediaSeasons st (Media.id found)).
    fold (minus (seasons body) (mediaSeasons st (Media.id found))).
    destruct (minus (seasons body) (mediaSeasons st (Media.id found)))
      as [| s0 rest]; simpl.
    + left. split; [reflexivity |]. eexists. reflexivity.
    + right. split; [discriminate |]. do 2 eexists.
      split; [reflexivity |].
      unfold MediaRequest.seasonNumbers. simpl.
      now rewrite seasonNumbers_built.
  - change (filter (fun _ : Z => true) (seasons body))
      with (minus (seasons body) []).
    destruct (minus (seasons body) []) as [| s0 rest]; simpl.
    + left. split; [reflexivity |]. eexists. reflexivity.
    + right. split; [discriminate |]. do 2 eexists.
      split; [reflexivity |].
      unfold MediaRequest.seasonNumbers. simpl.
      now rewrite seasonNumbers_built.
Qed.

Lemma filter_other_ids (id : Z) (l : list MediaRequest.t) :
  (forall x, In x l -> MediaRequest.id x <> id) ->
  filter (fun x => negb (MediaRequest.id x =? id)) l = l.
Proof.
  induction l as [| h t IH]; simpl; intros Hall; [reflexivity |].
  assert (E : (MediaRequest.id h =? id) = false)
    by (apply Z.eqb_neq, Hall; now left).
  rewrite E. simpl. f_equal. apply IH. intros x Hx. apply Hall. now right.
Qed.

(** X15. Deleting a request frees its seasons.  On a well-formed store,
    when a TV Create has succeeded and the Request it made is deleted again,
    the Request table is back to what it was, and the same Create, by
    whichever caller, succeeds again with the same season numbers. *)
Theorem delete_frees_seasons
        (tmdb : TheMovieDb.t) (st st1 : Store) (user other : User.t)
        (body : CreateBody) (code : Z) (request : MediaRequest.t) :
  wellFormed st ->
  mediaType body = "tv"%string ->
  requestRoutes_post tmdb st user body = (st1, Json code (One request)) ->
  requestTable (RequestRepository.delete (MediaRequest.id request) st1)
  = requestTable st /\
  exists st3 again,
    requestRoutes_post tmdb
      (RequestRepository.delete (MediaRequest.id request) st1) other body
    = (st3, Json 201 (One again)) /\
    MediaRequest.seasonNumbers again = MediaRequest.seasonNumbers request.
Proof.
  intros Hwf Htv Hpost.
  destruct (post_created tmdb st st1 user body code (One request) Hpost)
    as (r & Hr & _ & Htable & _ & Hid & _).
  injection Hr as <-.
  assert (Hback :
    requestTable (RequestRepository.delete (MediaRequest.id request) st1)
    = requestTable st).
  { simpl. rewrite Htable, filter_app. simpl.
    rewrite Z.eqb_refl. simpl. rewrite app_nil_r.
    apply filter_other_ids. intros x Hx.
    pose proof (wf_request_ids _ Hwf x Hx). lia. }
  split; [exact Hback |].
  destruct (TheMovieDb.getTvShow tmdb (mediaId body)) as [d | thrown] eqn:Hshow.
  2:{ exfalso. revert Hpost. unfold requestRoutes_post.
      rewrite Htv, Hshow. simpl. discriminate. }
  assert (Hsame :
    alreadyRequested
      (RequestRepository.delete (MediaRequest.id request) st1) (mediaId body)
    = alreadyRequested st (mediaId body)).
  { unfold alreadyRequested at 1 2. simpl mediaTable.
    destruct (find (fun m => Media.tmdbId m =? mediaId body) (mediaTable st))
      as [m |] eqn:Hfind.
    - destruct (post_media_found tmdb st user body m Hfind) as [Hmedia _].
      rewrite Hpost in Hmedia. simpl in Hmedia. rewrite Hmedia, Hfind.
      now apply mediaSeasons_same_table.
    - assert (Hanswer :
        (if String.eqb (mediaType body) "movie"
         then TheMovieDb.getMovie tmdb (mediaId body)
         else TheMovieDb.getTvShow tmdb (mediaId body))
        = TheMovieDb.Resolved d) by (rewrite Htv; exact Hshow).
      destruct (post_effect tmdb st user body)
        as [[message H] | (d' & m & st1' & _ & Hstep & Hout)];
        [rewrite H in Hpost; discriminate |].
      destruct Hstep as [[Hsome _] | (_ & Hmid & _ & Hst1')]; [congruence |].
      destruct Hout as [[message H] | (r' & H & _)];
        [rewrite H in Hpost; discriminate |].
      rewrite H in Hpost. injection Hpost as <- _. subst st1'.
      simpl mediaTable.
      rewrite (find_app_none _ _ _ [m] Hfind). simpl.
      destruct (Media.tmdbId m =? mediaId body); [| reflexivity].
      rewrite Hmid.
      transitivity (mediaSeasons st (mediaSeq st));
        [apply mediaSeasons_same_table; exact Hback
        | now apply mediaSeasons_fresh]. }
  destruct (post_tv tmdb st user body d Htv Hshow)
    as [[_ [st' H]] | (Hsome & st' & r0 & H & Hseasons)];
    [rewrite H in Hpost; discriminate |].
  rewrite H in Hpost. injection Hpost as _ _ Hreq. subst r0.
  destruct (post_tv tmdb (RequestRepository.delete (MediaRequest.id request) st1)
                    other body d Htv Hshow)
    as [[Hnil _] | (_ & st3 & again & Hagain & Hseasons')].
  - rewrite Hsame in Hnil. contradiction.
  - exists st3, again. split; [exact Hagain |].
    rewrite Hseasons', Hsame. now symmetry.
Qed.

(** ** The further properties at work on concrete calls *)

Lemma get_after_create_witness :
  requestRoutes_get Fixtures.oneMovie 1
  = (Fixtures.oneMovie, Json 200 (One Fixtures.movieRequest)).
Proof.
  destruct (get_after_create
              Fixtures.tmdb emptyStore Fixtures.oneMovie Fixtures.alice
              (Fixtures.movie 550) 201 Fixtures.movieRequest
              emptyStore_wellFormed eq_refl) as [Hget _].
  exact Hget.
Defined.

Lemma gone_after_delete_witness :
  requestRoutes_get (RequestRepository.delete 1 Fixtures.oneMovie) 1
  = (RequestRepository.delete 1 Fixtures.oneMovie,
     Next 404 "Request not found") /\
  requestRoutes_delete Fixtures.statusCode
    (RequestRepository.delete 1 Fixtures.oneMovie) Fixtures.admin 1
  = (RequestRepository.delete 1 Fixtures.oneMovie,
     Next 404 "Request not found").
Proof.
  destruct (gone_after_delete
              Fixtures.statusCode Fixtures.oneMovie
              (RequestRepository.delete 1 Fixtures.oneMovie)
              Fixtures.alice 1 200 (One Fixtures.movieRequest) eq_refl)
    as (Hget & Hdelete & _).
  split; [exact Hget | exact (Hdelete Fixtures.admin)].
Defined.

Lemma missing_id_not_found_witness :
  requestRoutes_delete Fixtures.statusCode Fixtures.oneMovie Fixtures.admin
                       999999
  = (Fixtures.oneMovie, Next 404 "Request not found") /\
  requestRoutes_get_status Fixtures.oneMovie 999999 "approve"
  = (Fixtures.oneMovie, Next 404 "Request not found").
Proof.
  destruct (missing_id_not_found Fixtures.statusCode Fixtures.oneMovie 999999)
    as [Hdelete Hstatus].
  - intros r [<- | []]. discriminate.
  - split; [exact (Hdelete Fixtures.admin) | exact (Hstatus "approve"%string)].
Defined.

Lemma manager_deletes_any_witness :
  requestRoutes_delete Fixtures.statusCodeFromOne Fixtures.approvedMovie
                       Fixtures.admin 1
  = (RequestRepository.delete 1 Fixtures.approvedMovie,
     Json 200 (One Fixtures.approvedRequest)).
Proof.
  apply manager_deletes_any; reflexivity.
Defined.

Lemma stranger_never_deletes_witness :
  requestRoutes_delete Fixtures.statusCode Fixtures.oneMovie Fixtures.bob 1
  = (Fixtures.oneMovie,
     Next 401 "You do not have permission to remove this request").
Proof.
  apply (stranger_never_deletes
           Fixtures.statusCode Fixtures.oneMovie Fixtures.bob 1
           Fixtures.movieRequest);
    [reflexivity | reflexivity | discriminate].
Defined.

Lemma change_status_last_wins_witness :
  requestRoutes_get_status Fixtures.approvedMovie 1 "pending"
  = requestRoutes_get_status Fixtures.oneMovie 1 "pending" /\
  fst (requestRoutes_get_status Fixtures.approvedMovie 1 "pending")
  = Fixtures.oneMovie.
Proof.
  destruct (change_status_last_wins
              Fixtures.oneMovie 1 Fixtures.movieRequest "approve" "pending"
              (or_introl eq_refl) eq_refl) as [Hsame _].
  split; [exact Hsame | reflexivity].
Defined.

Lemma unknown_media_type_fails_witness :
  exists st',
    requestRoutes_post Fixtures.tmdb Fixtures.oneMovie Fixtures.alice
                       (Fixtures.book 550)
    = (st', Next 500 "Invalid media type") /\
    requestTable st' = requestTable Fixtures.oneMovie.
Proof.
  destruct (unknown_media_type_fails
              Fixtures.tmdb Fixtures.oneMovie Fixtures.alice
              (Fixtures.book 550))
    as (st' & message & Hpost & Htable & Hmessage);
    [discriminate | discriminate |].
  simpl in Hmessage. subst message.
  exists st'. split; [exact Hpost | exact Htable].
Defined.

Lemma tv_without_seasons_fails_witness :
  exists st',
    requestRoutes_post Fixtures.tmdb Fixtures.twoSeasons Fixtures.bob
                       (Fixtures.tv 5 [])
    = (st', Next 500 "No seasons available to request") /\
    requestTable st' = requestTable Fixtures.twoSeasons.
Proof.
  destruct (tv_without_seasons_fails
              Fixtures.tmdb Fixtures.twoSeasons Fixtures.bob
              (Fixtures.tv 5 []) eq_refl eq_refl)
    as (st' & message & Hpost & Htable & Hmessage).
  simpl in Hmessage. subst message.
  exists st'. split; [exact Hpost | exact Htable].
Defined.

Lemma list_starts_with_created_witness :
  exists created rest,
    MediaRequest.seasonNumbers created = [3] /\
    requestRoutes_get_all
      (fst (requestRoutes_post Fixtures.tmdb Fixtures.twoSeasons Fixtures.bob
                               (Fixtures.tv 5 [3])))
      Fixtures.bob
    = (fst (requestRoutes_post Fixtures.tmdb Fixtures.twoSeasons Fixtures.bob
                               (Fixtures.tv 5 [3])),
       Json 200 (Many (created :: rest))).
Proof.
  eexists.
  destruct (list_starts_with_created
              Fixtures.tmdb Fixtures.twoSeasons
              (fst (requestRoutes_post Fixtures.tmdb Fixtures.twoSeasons
                                       Fixtures.bob (Fixtures.tv 5 [3])))
              Fixtures.bob (Fixtures.tv 5 [3]) 201 _
              (post_wellFormed Fixtures.tmdb emptyStore Fixtures.alice
                               (Fixtures.tv 5 [1; 2]) emptyStore_wellFormed)
              eq_refl) as [rest Hlist].
  exists rest. split; [| exact Hlist]. reflexivity.
Defined.

Lemma list_complete_within_limit_witness :
  exists requests,
    requestRoutes_get_all Fixtures.oneMovie Fixtures.alice
    = (Fixtures.oneMovie, Json 200 (Many requests)) /\
    Permutation [Fixtures.movieRequest] requests.
Proof.
  apply (list_complete_within_limit Fixtures.oneMovie Fixtures.alice).
  simpl. lia.
Defined.

Lemma delete_frees_seasons_witness :
  exists st3 again,
    requestRoutes_post Fixtures.tmdb
      (RequestRepository.delete 1 Fixtures.twoSeasons) Fixtures.bob
      (Fixtures.tv 5 [1; 2])
    = (st3, Json 201 (One again)) /\
    MediaRequest.seasonNumbers again = [1; 2].
Proof.
  destruct (delete_frees_seasons
              Fixtures.tmdb emptyStore Fixtures.twoSeasons Fixtures.alice
              Fixtures.bob (Fixtures.tv 5 [1; 2]) 201
              {| MediaRequest.id := 1;
                 MediaRequest.type := MediaType.TV;
                 MediaRequest.media :=
                   {| Media.id := 1; Media.tmdbId := 5;
                      Media.tvdbId := Some 1005;
                      Media.status := MediaStatus.PENDING;
                      Media.mediaType := "tv" |};
                 MediaRequest.requestedBy := Fixtures.alice;
                 MediaRequest.modifiedBy := None;
                 MediaRequest.status := Some MediaRequestStatus.PENDING;
                 MediaRequest.seasons :=
                   [{| SeasonRequest.seasonNumber := 1;
                       SeasonRequest.status := MediaRequestStatus.PENDING |};
                    {| SeasonRequest.seasonNumber := 2;
                       SeasonRequest.status := MediaRequestStatus.PENDING |}]
              |}
              emptyStore_wellFormed eq_refl eq_refl)
    as (_ & st3 & again & Hpost & Hseasons).
  exists st3, again. split; [exact Hpost | exact Hseasons].
Defined.

(** ** What no call changes *)

Lemma post_created_asCreated (tmdb : TheMovieDb.t) (st st' : Store)
      (user : User.t) (body : CreateBody) (code : Z) (r : MediaRequest.t) :
  requestRoutes_post tmdb st user body = (st', Json code (One r)) ->
  asCreated r.
Proof.
  assert (Hbuilt : forall status l,
    Forall (fun s => SeasonRequest.status s = status)
           (map (fun sn => {| SeasonRequest.seasonNumber := sn;
                              SeasonRequest.status := status |}) l)).
  { intros status l. apply Forall_forall. intros s Hs.
    apply in_map_iff in Hs. destruct Hs as [sn [<- _]]. reflexivity. }
  unfold_post.
  destruct (if String.eqb (mediaType body) "movie"
            then TheMovieDb.getMovie tmdb (mediaId body)
            else TheMovieDb.getTvShow tmdb (mediaId body)) as [d | message];
    [| discriminate].
  destruct (find (fun m => Media.tmdbId m =? mediaId body) (mediaTable st))
    as [m |]; simpl;
    (destruct (String.eqb (mediaType body) "movie");
     [intros H; injection H as _ _ <-; repeat split; constructor |];
     destruct (String.eqb (mediaType body) "tv"); [| discriminate];
     match goal with
     | |- context [(List.length ?l =? 0)%nat] =>
         destruct l as [| s0 rest] eqn:El; simpl; [discriminate |]
     end;
     intros H; injection H as _ _ <-;
     split; [reflexivity | split; [apply (Hbuilt _ (s0 :: rest)) | discriminate]]).
Qed.

Lemma failure_table (tmdb : TheMovieDb.t) (st st' : Store) (user : User.t)
      (body : CreateBody) (code : Z) (message : string) :
  requestRoutes_post tmdb st user body = (st', Next code message) ->
  requestTable st' = requestTable st.
Proof.
  intros Hpost.
  destruct (post_effect tmdb st user body)
    as [[message' H] | (d & m & st1 & _ & Hstep & Hout)].
  - rewrite H in Hpost. now injection Hpost as <- _ _.
  - destruct Hout as [[message' H] | (r & H & _)];
      rewrite H in Hpost; [| discriminate].
    injection Hpost as <- _ _.
    destruct Hstep as [[_ ->] | (_ & _ & _ & ->)]; reflexivity.
Qed.

Lemma handle_asCreated (tmdb : TheMovieDb.t)
      (statusCode : MediaRequestStatus.t -> Z) (st : Store) (user : User.t)
      (op : Operation) :
  Forall asCreated (requestTable st) ->
  Forall asCreated (requestTable (fst (handle tmdb statusCode st user op))).
Proof.
  intros Hall. destruct op as [| body | id | id | id status]; simpl.
  - exact Hall.
  - destruct (requestRoutes_post tmdb st user body) as [st' resp] eqn:Hpost.
    destruct resp as [code payload | code message]; simpl.
    + destruct (post_created tmdb st st' user body code payload Hpost)
        as (r & -> & _ & Htable & _).
      rewrite Htable. apply Forall_app. split; [exact Hall |].
      constructor; [| constructor].
      exact (post_created_asCreated tmdb st st' user body code r Hpost).
    + pose proof (failure_table tmdb st st' user body code message Hpost) as H.
      now rewrite H.
  - unfold requestRoutes_get.
    now destruct (RequestRepository.findOneOrFail id st).
  - unfold requestRoutes_delete.
    destruct (RequestRepository.findOneOrFail id st) as [r |]; [| exact Hall].
    destruct (negb (User.hasPermission user MANAGE_REQUESTS)
              && (negb (User.id (MediaRequest.requestedBy r) =? User.id user)
                  || statusAboveZero statusCode (MediaRequest.status r)));
      simpl; [exact Hall |].
    rewrite Forall_forall in *. intros x Hx. apply filter_In in Hx.
    now apply Hall.
  - unfold requestRoutes_get_status.
    destruct (RequestRepository.findOneOrFail id st) as [r |] eqn:Hfind;
      [| exact Hall].
    simpl. destruct (find_request_some _ _ _ Hfind) as [Hin _].
    rewrite Forall_forall in *. intros x Hx. apply in_map_iff in Hx.
    destruct Hx as [y [Hy Hyin]].
    destruct (MediaRequest.id y =? MediaRequest.id r); subst x;
      [exact (Hall r Hin) | exact (Hall y Hyin)].
Qed.

(** X16. In every store reached from the empty one, each request is as its
    creation left it apart from its own status: no handler ever records a
    modifier, the status of a season entry is still the one the requester's
    permissions gave it (Change-status on the parent never reaches it), a
    movie request has no season entry and a TV request has at least one. *)
Theorem reachable_requests_asCreated
        (tmdb : TheMovieDb.t) (statusCode : MediaRequestStatus.t -> Z)
        (calls : list (User.t * Operation)) :
  Forall asCreated (requestTable (fst (run tmdb statusCode emptyStore calls))).
Proof.
  assert (Hrun : forall calls st,
    Forall asCreated (requestTable st) ->
    Forall asCreated (requestTable (fst (run tmdb statusCode st calls)))).
  { clear calls. intros calls.
    induction calls as [| [user op] rest IH]; intros st Hall.
    - exact Hall.
    - rewrite run_cons. simpl. apply IH. now apply handle_asCreated. }
  apply Hrun. constructor.
Qed.

Lemma handle_status_defined (tmdb : TheMovieDb.t)
      (statusCode : MediaRequestStatus.t -> Z) (st : Store) (user : User.t)
      (op : Operation) :
  Forall (fun r => exists s, MediaRequest.status r = Some s) (requestTable st) ->
  Forall (fun r => exists s, MediaRequest.status r = Some s)
         (requestTable (fst (handle tmdb statusCode st user op))).
Proof.
  intros Hall. destruct op as [| body | id | id | id status]; simpl.
  - exact Hall.
  - destruct (requestRoutes_post tmdb st user body) as [st' resp] eqn:Hpost.
    destruct resp as [code payload | code message]; simpl.
    + destruct (post_created tmdb st st' user body code payload Hpost)
        as (r & -> & _ & Htable & _ & _ & _ & Hstatus).
      rewrite Htable. apply Forall_app. split; [exact Hall |].
      constructor; [| constructor]. eexists. exact Hstatus.
    + now rewrite (failure_table tmdb st st' user body code message Hpost).
  - unfold requestRoutes_get.
    now destruct (RequestRepository.findOneOrFail id st).
  - unfold requestRoutes_delete.
    destruct (RequestRepository.findOneOrFail id st) as [r |]; [| exact Hall].
    destruct (negb (User.hasPermission user MANAGE_REQUESTS)
              && (negb (User.id (MediaRequest.requestedBy r) =? User.id user)
                  || statusAboveZero statusCode (MediaRequest.status r)));
      simpl; [exact Hall |].
    rewrite Forall_forall in *. intros x Hx. apply filter_In in Hx.
    now apply Hall.
  - unfold requestRoutes_get_status.
    destruct (RequestRepository.findOneOrFail id st) as [r |]; [| exact Hall].
    simpl. rewrite Forall_forall in *. intros x Hx. apply in_map_iff in Hx.
    destruct Hx as [y [Hy Hyin]].
    destruct (MediaRequest.id y =? MediaRequest.id r); subst x;
      [| exact (Hall y Hyin)].
    simpl. destruct (newStatus status) as [s |];
      [now exists s | exact (Hall y Hyin)].
Qed.

(** X17. In every store reached from the empty one, each request has one of
    the three statuses: a Create stores pending or approved, Change-status
    writes the status its segment names and writes none when the segment
    names none, so no row ever holds an undefined status. *)
Theorem reachable_status_defined
        (tmdb : TheMovieDb.t) (statusCode : MediaRequestStatus.t -> Z)
        (calls : list (User.t * Operation)) :
  Forall (fun r => exists s, MediaRequest.status r = Some s)
         (requestTable (fst (run tmdb statusCode emptyStore calls))).
Proof.
  assert (Hrun : forall calls st,
    Forall (fun r => exists s, MediaRequest.status r = Some s)
           (requestTable st) ->
    Forall (fun r => exists s, MediaRequest.status r = Some s)
           (requestTable (fst (run tmdb statusCode st calls)))).
  { clear calls. intros calls.
    induction calls as [| [user op] rest IH]; intros st Hall.
    - exact Hall.
    - rewrite run_cons. simpl. apply IH. now apply handle_status_defined. }
  apply Hrun. constructor.
Qed.
